(** * The storefront home page handler (src/_workers_next/src/app/page.tsx)

    A shallow embedding of [stripMarkdown] and [Home], and the properties
    of the handler that the specification states.

    - JavaScript strings are sequences of UTF-16 code units: [list N].
    - The regular expressions of [stripMarkdown] are data ([item] lists)
      run by a backtracking matcher, and [String.prototype.replace] with
      the [g] flag is a left-to-right scan over the subject.
    - [Home] is written in a small monad: the state is the log of the
      backend functions invoked and the store of the arrays that the
      handler mutates in place; the outcome is a value or an exception. *)

From Stdlib Require Import ZArith NArith QArith Qcanon List Ascii String Sorted Permutation Lia Bool.
From stdpp Require Import base option numbers list gmap strings.

Local Open Scope Z_scope.

(** ** Strings *)

Abbreviation jsstring := (list N).

(** A string literal of the source (ASCII only), as code units. *)
Definition lit (s : string) : list N :=
  List.map N_of_ascii (list_ascii_of_string s).

(** WhiteSpace and LineTerminator code units of ECMAScript: what
    [String.prototype.trim] strips, what [\s] matches and what [parseInt]
    skips. *)
Definition is_line_terminator (c : N) : bool :=
  ((c =? 10) || (c =? 13) || (c =? 8232) || (c =? 8233))%N.

Definition is_white_space (c : N) : bool :=
  ((c =? 9) || (c =? 11) || (c =? 12) || (c =? 32) || (c =? 160)
   || (c =? 5760) || ((8192 <=? c) && (c <=? 8202)) || (c =? 8239)
   || (c =? 8287) || (c =? 12288) || (c =? 65279))%N.

Definition is_space (c : N) : bool :=
  is_white_space c || is_line_terminator c.

Fixpoint trimStart (s : list N) : list N :=
  match s with
  | c :: s' => if is_space c then trimStart s' else s
  | [] => []
  end.

Definition trimEnd (s : list N) : list N := rev (trimStart (rev s)).

Definition trim (s : list N) : list N := trimEnd (trimStart s).

(** ** Regular expressions

    The four patterns of [stripMarkdown] are sequences of: a literal
    character, the lazy [.*?] (captured as group 1 or not), a character
    class, and a greedy [+] over a class. *)

Inductive item : Type :=
  | Lit (c : N)
  | LazyDots (captured : bool)
  | Class (p : N -> bool)
  | Plus (p : N -> bool).

(** [.] without the [s] flag: any code unit but a line terminator. *)
Definition dot (c : N) : bool := negb (is_line_terminator c).

(** [match_here items s]: the backtracking match of [items] anchored at the
    start of [s]; the result is the number of code units consumed and the
    text of group 1. The lazy star first tries the rest of the pattern and
    takes one more character only when that fails; the greedy plus takes
    as many characters as it can and gives them back one at a time. *)
Fixpoint match_here (items : list item) (s : list N) : option (nat * list N) :=
  match items with
  | [] => Some (0%nat, [])
  | Lit c :: items' =>
      match s with
      | d :: s' =>
          if (c =? d)%N
          then match match_here items' s' with
               | Some (n, g) => Some (S n, g)
               | None => None
               end
          else None
      | [] => None
      end
  | Class p :: items' =>
      match s with
      | d :: s' =>
          if p d
          then match match_here items' s' with
               | Some (n, g) => Some (S n, g)
               | None => None
               end
          else None
      | [] => None
      end
  | LazyDots captured :: items' =>
      (fix lazy (s : list N) : option (nat * list N) :=
         match match_here items' s with
         | Some (n, g) => Some (n, if captured then [] else g)
         | None =>
             match s with
             | d :: s' =>
                 if dot d
                 then match lazy s' with
                      | Some (n, g) => Some (S n, if captured then d :: g else g)
                      | None => None
                      end
                 else None
             | [] => None
             end
         end) s
  | Plus p :: items' =>
      (fix greedy (s : list N) : option (nat * list N) :=
         match s with
         | d :: s' =>
             if p d
             then match greedy s' with
                  | Some (n, g) => Some (S n, g)
                  | None =>
                      match match_here items' s' with
                      | Some (n, g) => Some (S n, g)
                      | None => None
                      end
                  end
             else None
         | [] => None
         end) s
  end.

(** The replacement text: literal text and [$1]. *)
Inductive rpart : Type :=
  | RText (t : list N)
  | RGroup1.

Definition expand (repl : list rpart) (g : list N) : list N :=
  concat (List.map (fun r => match r with RText t => t | RGroup1 => g end) repl).

(** [s.replace(/items/g, repl)]: at each position, left to right, the
    pattern is tried; a match is replaced and the scan resumes after it
    ([skip] counts the matched characters still to drop), an empty match
    inserts the replacement and keeps the character, and no match keeps the
    character. *)
Fixpoint replace_from (items : list item) (repl : list rpart)
    (skip : nat) (s : list N) : list N :=
  match s with
  | [] =>
      match match_here items [] with
      | Some (_, g) => expand repl g
      | None => []
      end
  | c :: s' =>
      match skip with
      | S k => replace_from items repl k s'
      | O =>
          match match_here items s with
          | Some (S n, g) => expand repl g ++ replace_from items repl n s'
          | Some (O, g) => expand repl g ++ c :: replace_from items repl O s'
          | None => c :: replace_from items repl O s'
          end
      end
  end.

Definition replace_all (items : list item) (repl : list rpart) (s : list N) : list N :=
  replace_from items repl 0 s.

(** ** stripMarkdown *)

Definition ch (a : ascii) : N := N_of_ascii a.

(** [/!\[.*?\]\(.*?\)/g] *)
Definition re_image : list item :=
  [Lit (ch "!"); Lit (ch "["); LazyDots false; Lit (ch "]"); Lit (ch "(");
   LazyDots false; Lit (ch ")")].

(** [/\[(.*?)\]\(.*?\)/g] *)
Definition re_link : list item :=
  [Lit (ch "["); LazyDots true; Lit (ch "]"); Lit (ch "("); LazyDots false;
   Lit (ch ")")].

(** The class [[`*_>#+-]]. *)
Definition is_markup (c : N) : bool :=
  ((c =? 96) || (c =? 42) || (c =? 95) || (c =? 62) || (c =? 35)
   || (c =? 43) || (c =? 45))%N.

Definition re_markup : list item := [Class is_markup].

(** [/\s+/g] *)
Definition re_spaces : list item := [Plus is_space].

Definition space : list N := [32%N].

Definition stripMarkdown (input : list N) : list N :=
  trim
    (replace_all re_spaces [RText space]
       (replace_all re_markup [RText space]
          (replace_all re_link [RGroup1]
             (replace_all re_image [RText []] input)))).


(** What the [\s+] replacement comes to, written as a scan with one flag:
    a run of white space leaves one space (lemma [replace_spaces]). *)
Fixpoint squeeze (in_run : bool) (s : list N) : list N :=
  match s with
  | [] => []
  | c :: s' =>
      if is_space c
      then if in_run then squeeze true s' else 32%N :: squeeze true s'
      else c :: squeeze false s'
  end.

(** The length of the run of [p] characters that [s] starts with. *)
Fixpoint run_length (p : N -> bool) (s : list N) : nat :=
  match s with
  | c :: s' => if p c then S (run_length p s') else O
  | [] => O
  end.

(** No two adjacent white-space characters. *)
Fixpoint single_spaced (s : list N) : bool :=
  match s with
  | c :: s' =>
      match s' with
      | d :: _ => negb (is_space c && is_space d) && single_spaced s'
      | [] => true
      end
  | [] => true
  end.

(** ** Numbers

    The numbers that the handler computes with are the result of
    [Number.parseInt] and what [||] and [Math.max] make of it: NaN, the
    infinities, or an integer-valued double (the two zeros are not told
    apart: both are falsy and both compare equal to 0). *)

Inductive Number : Type :=
  | NaN
  | PosInf
  | NegInf
  | Int (z : Z).

(** The double nearest to the natural number [n], ties to even; from
    [2^1024 - 2^970] on the result is [+Infinity]. *)
Definition double_of_nat (n : Z) : Number :=
  if n <? 2 ^ 53 then Int n
  else
    let sh := Z.log2 n - 52 in
    let q := Z.shiftr n sh in
    let r := n - Z.shiftl q sh in
    let half := 2 ^ (sh - 1) in
    let q' := if (half <? r) || ((r =? half) && Z.odd q) then q + 1 else q in
    let v := Z.shiftl q' sh in
    if 2 ^ 1024 <=? v then PosInf else Int v.

Definition negate (x : Number) : Number :=
  match x with
  | NaN => NaN
  | PosInf => NegInf
  | NegInf => PosInf
  | Int z => Int (- z)
  end.

Definition is_digit (c : N) : bool := ((48 <=? c) && (c <=? 57))%N.

(** The longest prefix of decimal digits. *)
Fixpoint digits_prefix (s : list N) : list N :=
  match s with
  | c :: s' => if is_digit c then c :: digits_prefix s' else []
  | [] => []
  end.

Definition digits_value (ds : list N) : Z :=
  fold_left (fun acc c => 10 * acc + (Z.of_N c - 48)) ds 0.

(** The sign that [parseInt] reads, and the rest. *)
Definition parse_sign (s : list N) : bool * list N :=
  match s with
  | c :: s' =>
      if (c =? 45)%N then (true, s')
      else if (c =? 43)%N then (false, s')
      else (false, s)
  | [] => (false, [])
  end.

(** [Number.parseInt(s, 10)]: leading white space is skipped, one sign is
    read, then the longest run of decimal digits; no digit gives NaN. The
    value is converted exactly (an implementation may also round after the
    20th significant digit; V8 does not). *)
Definition parseInt10 (s : list N) : Number :=
  let '(neg, s2) := parse_sign (trimStart s) in
  match digits_prefix s2 with
  | [] => NaN
  | ds =>
      let v := double_of_nat (digits_value ds) in
      if neg then negate v else v
  end.

(** [x || y] on numbers: NaN and 0 are falsy. *)
Definition number_or (x y : Number) : Number :=
  match x with
  | NaN => y
  | Int 0 => y
  | _ => x
  end.

(** [Math.max(1, x)]. *)
Definition max_1 (x : Number) : Number :=
  match x with
  | NaN => NaN
  | PosInf => PosInf
  | NegInf => Int 1
  | Int z => Int (Z.max 1 z)
  end.

(** ** Sorting

    [Array.prototype.sort] is stable, and for a consistent comparator its
    result is the one stable sorted arrangement; [sort_by le] computes it,
    [le a b] standing for [comparefn(a, b) <= 0]. *)

Section Sort.
Context {A : Type} (le : A -> A -> bool).

Fixpoint insert_sorted (x : A) (l : list A) : list A :=
  match l with
  | [] => [x]
  | y :: l' => if le x y then x :: l else y :: insert_sorted x l'
  end.

Definition sort_by (l : list A) : list A := foldr insert_sorted [] l.
End Sort.

(** The default comparator of [sort()]: strings by code units. *)
Fixpoint string_le (a b : list N) : bool :=
  match a, b with
  | [], _ => true
  | _ :: _, [] => false
  | x :: a', y :: b' => ((x <? y) || ((x =? y) && string_le a' b'))%N
  end.

Definition sort_strings (l : list (list N)) : list (list N) := sort_by string_le l.

(** ** The data of a request *)

(** A value of the request parameters: [string | string[] | undefined]. *)
Inductive ParamValue : Type :=
  | PString (s : jsstring)
  | PArray (l : list jsstring)
  | PUndefined.

(** [typeof v === 'string' ? v : d] for a property read [v]. *)
Definition string_or (v : option ParamValue) (d : jsstring) : jsstring :=
  match v with
  | Some (PString s) => s
  | _ => d
  end.

(** A product row: [id], [description], [locked] and [sold] may be missing
    or null. *)
Record Product : Type := {
  p_id : option jsstring;
  stock : Z;
  locked : option Z;
  sold : option Z;
  description : option jsstring
}.

Record Rating : Type := { average : Qc; count : Z }.

(** A product as the page shows it: the row ([...p]) and the computed
    fields. *)
Record EnrichedProduct : Type := {
  base : Product;
  stockCount : Z;
  soldCount : Z;
  descriptionPlain : jsstring;
  rating : Qc;
  reviewCount : Z
}.

Record CategoryConfig : Type := { name : jsstring; sortOrder : option Z }.

Record User : Type := { user_id : option jsstring }.
Record Session : Type := { user : option User }.

Record SearchArgs : Type := {
  a_q : jsstring;
  a_category : jsstring;
  a_sort : jsstring;
  a_page : Number;
  a_pageSize : Z
}.

Record SearchResult : Type := {
  items : option (list Product);
  r_total : option Z;
  r_page : Number;
  r_pageSize : Z
}.

Record Filters : Type := {
  f_q : jsstring;
  f_category : option jsstring;
  f_sort : jsstring
}.

Record Pagination : Type := { page : Number; pageSize : Z; total : Z }.

(** [x || d] where a missing, null or (for a number) zero or (for a
    string) empty [x] is falsy. *)
Definition Z_or (x : option Z) (d : Z) : Z :=
  match x with
  | Some 0 => d
  | Some z => z
  | None => d
  end.

Definition truthy_string (x : option jsstring) : option jsstring :=
  match x with
  | Some (c :: s) => Some (c :: s)
  | _ => None
  end.

Definition str_or (x : option jsstring) (d : jsstring) : jsstring :=
  default d (truthy_string x).

(** ** Effects: the calls log, the array store, exceptions *)

Inductive Call : Type :=
  | Call_auth
  | Call_searchActiveProducts (a : SearchArgs)
  | Call_getActiveAnnouncement
  | Call_getVisitorCount
  | Call_getCategories
  | Call_getActiveProductCategories
  | Call_getProductRatings (ids : list jsstring)
  | Call_getUserPendingOrders (uid : jsstring).

(** [calls]: the backend functions invoked so far, latest first.
    [arrays]: the category-config arrays, by reference. *)
Record World : Type := {
  calls : list Call;
  arrays : list (list CategoryConfig)
}.

Definition initial_world : World := {| calls := []; arrays := [] |}.

Inductive Outcome (A : Type) : Type :=
  | Returned (a : A)
  | Thrown.
Arguments Returned {A} a.
Arguments Thrown {A}.

Definition M (A : Type) : Type := World -> Outcome A * World.

Definition ret {A} (a : A) : M A := fun w => (Returned a, w).

Definition bind {A B} (m : M A) (k : A -> M B) : M B :=
  fun w =>
    match m w with
    | (Returned a, w') => k a w'
    | (Thrown, w') => (Thrown, w')
    end.

Notation "'let*' x ':=' m 'in' k" := (bind m (fun x => k))
  (at level 10, x name, m at level 100, k at level 200).

(** [m.catch(() => d)], and [try { x = await m } catch {}] with [x]
    initially [d]. *)
Definition catch {A} (m : M A) (d : A) : M A :=
  fun w =>
    match m w with
    | (Returned a, w') => (Returned a, w')
    | (Thrown, w') => (Returned d, w')
    end.

(** A promise is started and settles; it is awaited later. *)
Definition settle {A} (m : M A) : M (Outcome A) :=
  fun w => let '(o, w') := m w in (Returned o, w').

Definition await {A} (o : Outcome A) : M A := fun w => (o, w).

(** The invocation of a backend function: logged, with its outcome. *)
Definition invoke {A} (c : Call) (o : Outcome A) : M A :=
  fun w => (o, {| calls := c :: calls w; arrays := arrays w |}).

(** [unstable_cache(producer, keyParts, options)()]: the entry of the cache
    under the key when there is one, the producer's result otherwise. *)
Definition unstable_cache {A} (store : list jsstring -> option A)
    (producer : M A) (keyParts : list jsstring) : M A :=
  match store keyParts with
  | Some v => ret v
  | None => producer
  end.

(** What a cached read comes to: the entry of the cache, or the outcome of
    the backend function; and the value used when it fails. *)
Definition read_outcome {A} (store : list jsstring -> option A)
    (keyParts : list jsstring) (o : Outcome A) : Outcome A :=
  match store keyParts with
  | Some v => Returned v
  | None => o
  end.

Definition or_fallback {A} (o : Outcome A) (d : A) : A :=
  match o with
  | Returned v => v
  | Thrown => d
  end.

(** The calls that a cached read adds to the log: none on a hit. *)
Definition miss_calls {A} (store : list jsstring -> option A)
    (keyParts : list jsstring) (c : Call) : list Call :=
  match store keyParts with
  | Some _ => []
  | None => [c]
  end.

(** Arrays by reference. *)
Definition new_array (l : list CategoryConfig) : M nat :=
  fun w => (Returned (length (arrays w)),
            {| calls := calls w; arrays := arrays w ++ [l] |}).

Definition read_array (r : nat) : M (list CategoryConfig) :=
  fun w =>
    match arrays w !! r with
    | Some l => (Returned l, w)
    | None => (Thrown, w)
    end.

(** [array.sort(comparefn)]: sorts in place and returns the array. *)
Definition sort_array (le : CategoryConfig -> CategoryConfig -> bool) (r : nat) : M nat :=
  fun w =>
    match arrays w !! r with
    | Some l =>
        (Returned r, {| calls := calls w; arrays := <[r := sort_by le l]> (arrays w) |})
    | None => (Thrown, w)
    end.

(** ** The handler *)

Definition CACHE_TTL_SECONDS : Z := 30.
Definition PAGE_SIZE : Z := 24.

(** The comparator of the category sort:
    [(a, b) => (a.sortOrder || 0) - (b.sortOrder || 0)]. *)
Definition sortOrder_or_0 (c : CategoryConfig) : Z := Z_or (sortOrder c) 0.

Definition compare_sortOrder (a b : CategoryConfig) : Z :=
  sortOrder_or_0 a - sortOrder_or_0 b.

Definition sortOrder_le (a b : CategoryConfig) : bool :=
  compare_sortOrder a b <=? 0.

(** [array.includes(c)] on strings. *)
Definition includes (l : list jsstring) (c : jsstring) : bool :=
  bool_decide (c ∈ l).

(** [productCategories.filter((c) => !categoryNames.includes(c)).sort()] *)
Definition extraCategories (categoryNames productCategories : list jsstring)
  : list jsstring :=
  sort_strings (List.filter (fun c => negb (includes categoryNames c)) productCategories).

(** [products.map((p) => p.id).filter(Boolean)] *)
Definition productIds (products : list Product) : list jsstring :=
  omap (fun p => truthy_string (p_id p)) products.

(** [[...productIds].sort()] *)
Definition sortedIds (products : list Product) : list jsstring :=
  sort_strings (productIds products).

(** [ratingsMap.get(p.id) || { average: 0, count: 0 }] *)
Definition rating_of (ratingsMap : gmap (list N) Rating) (p : Product) : Rating :=
  let found :=
    match p_id p with
    | Some i => ratingsMap !! i
    | None => None
    end in
  default {| average := 0%Qc; count := 0 |} found.

Definition enrich (ratingsMap : gmap (list N) Rating) (p : Product) : EnrichedProduct :=
  let rating := rating_of ratingsMap p in
  {| base := p;
     stockCount := stock p + Z_or (locked p) 0;
     soldCount := Z_or (sold p) 0;
     descriptionPlain := stripMarkdown (str_or (description p) []);
     rating := average rating;
     reviewCount := count rating |}.

(** [session?.user?.id], when truthy. *)
Definition session_user_id (session : option Session) : option jsstring :=
  match session with
  | Some s =>
      match user s with
      | Some u => truthy_string (user_id u)
      | None => None
      end
  | None => None
  end.

Section Handler.
(** What the page shows of an announcement and of an order is the
    presentation's business. *)
Context {Announcement Order : Type}.

(** [String(n)] for a number: the notation that [Number::toString] gives
    it. Only the key of the search uses it, and the handler never reads
    the key, so the notation is left open. *)
Variable String_of_Number : Number -> jsstring.

(** The collaborators: what each backend function does when invoked. *)
Record Backend : Type := {
  auth : Outcome (option Session);
  searchActiveProducts : SearchArgs -> Outcome SearchResult;
  getActiveAnnouncement : Outcome (option Announcement);
  getVisitorCount : Outcome Z;
  getCategories : Outcome (list CategoryConfig);
  getActiveProductCategories : Outcome (list jsstring);
  getProductRatings : list jsstring -> Outcome (gmap (list N) Rating);
  getUserPendingOrders : jsstring -> Outcome (list Order)
}.

(** The entries of the framework's cache when the request arrives. *)
Record Cache : Type := {
  cached_products : list jsstring -> option SearchResult;
  cached_announcement : list jsstring -> option (option Announcement);
  cached_visitors : list jsstring -> option Z;
  cached_categories : list jsstring -> option (list CategoryConfig);
  cached_product_categories : list jsstring -> option (list jsstring);
  cached_ratings : list jsstring -> option (gmap (list N) Rating)
}.

(** The props of [HomeContent]; [categoryConfig] is a reference to the
    array. *)
Record ViewModel : Type := {
  products : list EnrichedProduct;
  announcement : option Announcement;
  visitorCount : Z;
  categories : list jsstring;
  categoryConfig : nat;
  pendingOrders : list Order;
  filters : Filters;
  pagination : Pagination
}.

Variable backend : Backend.
Variable cache : Cache.

Definition getCachedAnnouncement : M (option Announcement) :=
  unstable_cache (cached_announcement cache)
    (invoke Call_getActiveAnnouncement (getActiveAnnouncement backend))
    [lit "active-announcement"].

Definition getCachedVisitorCount : M Z :=
  unstable_cache (cached_visitors cache)
    (invoke Call_getVisitorCount (getVisitorCount backend))
    [lit "visitor-count"].

Definition getCachedCategories : M (list CategoryConfig) :=
  unstable_cache (cached_categories cache)
    (invoke Call_getCategories (getCategories backend))
    [lit "categories"].

Definition getCachedProductCategories : M (list jsstring) :=
  unstable_cache (cached_product_categories cache)
    (invoke Call_getActiveProductCategories (getActiveProductCategories backend))
    [lit "active-product-categories"].

(** The filters read from the request parameters (lines 55-60). *)
Definition resolve (searchParams : option (gmap string ParamValue))
  : gmap string ParamValue := default ∅ searchParams.

Definition param_q (resolved : gmap string ParamValue) : jsstring :=
  trim (string_or (resolved !! "q"%string) []).

Definition param_categoryParam (resolved : gmap string ParamValue) : jsstring :=
  trim (string_or (resolved !! "category"%string) []).

Definition param_category (resolved : gmap string ParamValue) : jsstring :=
  let categoryParam := param_categoryParam resolved in
  match categoryParam with
  | [] => []
  | _ => if bool_decide (categoryParam ≠ lit "all") then categoryParam else []
  end.

Definition param_sort (resolved : gmap string ParamValue) : jsstring :=
  trim (string_or (resolved !! "sort"%string) (lit "default")).

Definition param_page (resolved : gmap string ParamValue) : Number :=
  max_1 (number_or (parseInt10 (string_or (resolved !! "page"%string) (lit "1")))
                   (Int 1)).

(** The cached product search (lines 65-68). *)
Definition cachedSearch (q category sort : jsstring) (page : Number) : M SearchResult :=
  let args := {| a_q := q; a_category := category; a_sort := sort;
                 a_page := page; a_pageSize := PAGE_SIZE |} in
  unstable_cache (cached_products cache)
    (invoke (Call_searchActiveProducts args) (searchActiveProducts backend args))
    [lit "search-active-products"; q; str_or (Some category) (lit "all"); sort;
     String_of_Number page; String_of_Number (Int PAGE_SIZE)].

(** The cached ratings read (lines 83-87). *)
Definition cachedRatings (sortedIds : list jsstring) : M (gmap (list N) Rating) :=
  unstable_cache (cached_ratings cache)
    (invoke (Call_getProductRatings sortedIds) (getProductRatings backend sortedIds))
    (lit "product-ratings" :: sortedIds).

Definition Home (searchParams : option (gmap string ParamValue)) : M ViewModel :=
  let resolved := resolve searchParams in
  let q := param_q resolved in
  let category := param_category resolved in
  let sort := param_sort resolved in
  let page := param_page resolved in
  (* Promise.all: the six reads are started, then awaited together *)
  let* session_p := settle (invoke Call_auth (auth backend)) in
  let* productsResult :=
    catch (cachedSearch q category sort page)
      {| items := Some []; r_total := Some 0; r_page := page;
         r_pageSize := PAGE_SIZE |} in
  let* announcement := catch getCachedAnnouncement None in
  let* visitorCount := catch getCachedVisitorCount 0 in
  let* categoryConfig := bind (catch getCachedCategories []) new_array in
  let* productCategories := catch getCachedProductCategories [] in
  let* session := await session_p in
  let products := default [] (items productsResult) in
  let total := Z_or (r_total productsResult) 0 in
  let sortedIds := sortedIds products in
  let* ratingsMap := catch (cachedRatings sortedIds) ∅ in
  let productsWithRatings := List.map (enrich ratingsMap) products in
  let* pendingOrders :=
    match session_user_id session with
    | Some uid =>
        catch (invoke (Call_getUserPendingOrders uid)
                 (getUserPendingOrders backend uid)) []
    | None => ret []
    end in
  let* sorted := sort_array sortOrder_le categoryConfig in
  let* sorted_elements := read_array sorted in
  let categoryNames := List.map name sorted_elements in
  let extraCategories := extraCategories categoryNames productCategories in
  let categories := categoryNames ++ extraCategories in
  ret {| products := productsWithRatings;
         announcement := announcement;
         visitorCount := visitorCount;
         categories := categories;
         categoryConfig := categoryConfig;
         pendingOrders := pendingOrders;
         filters := {| f_q := q; f_category := truthy_string (Some category);
                       f_sort := sort |};
         pagination := {| page := page; pageSize := PAGE_SIZE; total := total |} |}.

(** *** The reads of a request, one by one

    Each is the outcome that [Home] observes; "the read fails" is
    [Thrown]. *)
Definition search_args (resolved : gmap string ParamValue) : SearchArgs :=
  {| a_q := param_q resolved; a_category := param_category resolved;
     a_sort := param_sort resolved; a_page := param_page resolved;
     a_pageSize := PAGE_SIZE |}.

Definition search_key (resolved : gmap string ParamValue) : list jsstring :=
  [lit "search-active-products"; param_q resolved;
   str_or (Some (param_category resolved)) (lit "all"); param_sort resolved;
   String_of_Number (param_page resolved); String_of_Number (Int PAGE_SIZE)].

Definition search_read (resolved : gmap string ParamValue) : Outcome SearchResult :=
  read_outcome (cached_products cache) (search_key resolved)
    (searchActiveProducts backend (search_args resolved)).

Definition announcement_read : Outcome (option Announcement) :=
  read_outcome (cached_announcement cache) [lit "active-announcement"]
    (getActiveAnnouncement backend).

Definition visitors_read : Outcome Z :=
  read_outcome (cached_visitors cache) [lit "visitor-count"] (getVisitorCount backend).

Definition categories_read : Outcome (list CategoryConfig) :=
  read_outcome (cached_categories cache) [lit "categories"] (getCategories backend).

Definition product_categories_read : Outcome (list jsstring) :=
  read_outcome (cached_product_categories cache) [lit "active-product-categories"]
    (getActiveProductCategories backend).

Definition ratings_read (ids : list jsstring) : Outcome (gmap (list N) Rating) :=
  read_outcome (cached_ratings cache) (lit "product-ratings" :: ids)
    (getProductRatings backend ids).

(** The products of the search, or of its fallback. *)
Definition found_products (resolved : gmap string ParamValue) : list Product :=
  default [] (items (or_fallback (search_read resolved)
    {| items := Some []; r_total := Some 0; r_page := param_page resolved;
       r_pageSize := PAGE_SIZE |})).

Definition pending_read (session : option Session) : Outcome (list Order) :=
  match session_user_id session with
  | Some uid => getUserPendingOrders backend uid
  | None => Returned []
  end.

(** The view model and the log that [Home] ends with, in closed form
    (lemma [Home_run] below). *)
Definition Home_view (resolved : gmap string ParamValue) (session : option Session)
  : ViewModel :=
  let products := found_products resolved in
  let ratingsMap := or_fallback (ratings_read (sortedIds products)) ∅ in
  let categoryNames :=
    List.map name (sort_by sortOrder_le (or_fallback categories_read [])) in
  {| products := List.map (enrich ratingsMap) products;
     announcement := or_fallback announcement_read None;
     visitorCount := or_fallback visitors_read 0;
     categories :=
       categoryNames
       ++ extraCategories categoryNames (or_fallback product_categories_read []);
     categoryConfig := 0%nat;
     pendingOrders := or_fallback (pending_read session) [];
     filters := {| f_q := param_q resolved;
                   f_category := truthy_string (Some (param_category resolved));
                   f_sort := param_sort resolved |};
     pagination :=
       {| page := param_page resolved; pageSize := PAGE_SIZE;
          total := Z_or (r_total (or_fallback (search_read resolved)
            {| items := Some []; r_total := Some 0; r_page := param_page resolved;
               r_pageSize := PAGE_SIZE |})) 0 |} |}.

Definition Home_calls (resolved : gmap string ParamValue) (session : option Session)
  : list Call :=
  match session_user_id session with
  | Some uid => [Call_getUserPendingOrders uid]
  | None => []
  end
  ++ miss_calls (cached_ratings cache)
       (lit "product-ratings" :: sortedIds (found_products resolved))
       (Call_getProductRatings (sortedIds (found_products resolved)))
  ++ miss_calls (cached_product_categories cache) [lit "active-product-categories"]
       Call_getActiveProductCategories
  ++ miss_calls (cached_categories cache) [lit "categories"] Call_getCategories
  ++ miss_calls (cached_visitors cache) [lit "visitor-count"] Call_getVisitorCount
  ++ miss_calls (cached_announcement cache) [lit "active-announcement"]
       Call_getActiveAnnouncement
  ++ miss_calls (cached_products cache) (search_key resolved)
       (Call_searchActiveProducts (search_args resolved))
  ++ [Call_auth].

(** The array that [HomeContent] finds behind [categoryConfig]. *)
Definition categoryConfig_array (vm : ViewModel) (w : World) : list CategoryConfig :=
  default [] (arrays w !! categoryConfig vm).
End Handler.

(** ** Sample collaborators

    A backend and a cache to run the handler on: the session and the
    outcomes of the reads are given, nothing is cached. *)

Definition sample_backend (session : Outcome (option Session))
    (search : Outcome SearchResult)
    (categories : Outcome (list CategoryConfig))
    (productCategories : Outcome (list jsstring))
    (ratings : Outcome (gmap (list N) Rating)) : @Backend unit unit :=
  {| auth := session;
     searchActiveProducts := fun _ => search;
     getActiveAnnouncement := Returned (Some tt);
     getVisitorCount := Returned 7;
     getCategories := categories;
     getActiveProductCategories := productCategories;
     getProductRatings := fun _ => ratings;
     getUserPendingOrders := fun _ => Returned [tt] |}.

Definition empty_cache : @Cache unit :=
  {| cached_products := fun _ => None;
     cached_announcement := fun _ => None;
     cached_visitors := fun _ => None;
     cached_categories := fun _ => None;
     cached_product_categories := fun _ => None;
     cached_ratings := fun _ => None |}.

Definition no_digits : Number -> jsstring := fun _ => [].

Definition sample_product (i : string) : Product :=
  {| p_id := Some (lit i); stock := 3; locked := Some 1; sold := None;
     description := Some (lit "**new**") |}.

Definition sample_search (l : list Product) : SearchResult :=
  {| items := Some l; r_total := Some (Z.of_nat (length l)); r_page := Int 1;
     r_pageSize := PAGE_SIZE |}.

Definition sample_user (i : string) : option Session :=
  Some {| user := Some {| user_id := Some (lit i) |} |}.

Definition sample_config : list CategoryConfig :=
  [ {| name := lit "B"; sortOrder := Some 2 |};
    {| name := lit "A"; sortOrder := Some 1 |} ].

Definition sample_params (k : string) (v : jsstring) : option (gmap string ParamValue) :=
  Some {[ k := PString v ]}.

(** ** The handler on the cache of the framework

    [unstable_cache] above is the cache as the specification has it: the
    producer's result, possibly from an earlier invocation. The cache of
    next/cache does less and more:
    - the key is the key parts joined with commas;
    - an entry is the JSON of what the producer returned, and a hit hands
      back what [JSON.parse] makes of it: for the search, the announcement,
      the visitor count and the two category lists the value again, for a
      [Map] of ratings the plain object [{}], which has no [get];
    - an entry older than [revalidate] seconds is handed back all the same,
      and the producer is run once more for the next request.
    And [auth()] may fail at the call rather than by a rejected promise;
    then the array of line 63 is never built and no other read starts. *)

Module Framework.

(** [keyParts.join(',')] *)
Fixpoint join (keyParts : list jsstring) : jsstring :=
  match keyParts with
  | [] => []
  | [k] => k
  | k :: rest => k ++ 44%N :: join rest
  end.

(** An entry of the cache: what [JSON.parse] makes of the stored text, and
    whether the entry has outlived [CACHE_TTL_SECONDS]. *)
Record Entry (A : Type) : Type := { parsed : A; stale : bool }.
Arguments parsed {A} e.
Arguments stale {A} e.

(** What [ratingsMap] holds after line 87. *)
Inductive RatingsValue : Type :=
  | IsMap (m : gmap (list N) Rating)
  | IsPlainObject.

(** How [auth()] fails when it does. *)
Inductive Failure : Type :=
  | Rejects
  | Throws.

Definition unstable_cache {A} (store : jsstring -> option (Entry A))
    (producer : M A) (keyParts : list jsstring) : M A :=
  match store (join keyParts) with
  | Some e =>
      if stale e
      then let* _ := settle producer in ret (parsed e)
      else ret (parsed e)
  | None => producer
  end.

(** What a caught cached read comes to, and the calls that it logs. *)
Definition served {A} (store : jsstring -> option (Entry A))
    (keyParts : list jsstring) (o : Outcome A) (d : A) : A :=
  match store (join keyParts) with
  | Some e => parsed e
  | None => or_fallback o d
  end.

Definition producer_calls {A} (store : jsstring -> option (Entry A))
    (keyParts : list jsstring) (c : Call) : list Call :=
  match store (join keyParts) with
  | Some e => if stale e then [c] else []
  | None => [c]
  end.

(** The callback of [products.map] (lines 92-102): [ratingsMap.get] is a
    call of [undefined] on a plain object. *)
Definition enrich_or_throw (ratingsMap : RatingsValue) (p : Product)
  : Outcome EnrichedProduct :=
  match ratingsMap with
  | IsMap m => Returned (enrich m p)
  | IsPlainObject => Thrown
  end.

(** [array.map(f)] for a callback that may throw. *)
Fixpoint map_outcome {A B} (f : A -> Outcome B) (l : list A) : Outcome (list B) :=
  match l with
  | [] => Returned []
  | x :: l' =>
      match f x with
      | Returned y =>
          match map_outcome f l' with
          | Returned ys => Returned (y :: ys)
          | Thrown => Thrown
          end
      | Thrown => Thrown
      end
  end.

Section Handler.
Context {Announcement Order : Type}.
Variable String_of_Number : Number -> jsstring.
Variable auth_failure : Failure.

(** The entries of the cache when the request arrives. An entry of the
    ratings read is the JSON of a [Map]: there is nothing in it. *)
Record Cache : Type := {
  cached_products : jsstring -> option (Entry SearchResult);
  cached_announcement : jsstring -> option (Entry (option Announcement));
  cached_visitors : jsstring -> option (Entry Z);
  cached_categories : jsstring -> option (Entry (list CategoryConfig));
  cached_product_categories : jsstring -> option (Entry (list jsstring));
  cached_ratings : jsstring -> option (Entry unit)
}.

Variable backend : @Backend Announcement Order.
Variable cache : Cache.

Definition getCachedAnnouncement : M (option Announcement) :=
  unstable_cache (cached_announcement cache)
    (invoke Call_getActiveAnnouncement (getActiveAnnouncement backend))
    [lit "active-announcement"].

Definition getCachedVisitorCount : M Z :=
  unstable_cache (cached_visitors cache)
    (invoke Call_getVisitorCount (getVisitorCount backend))
    [lit "visitor-count"].

Definition getCachedCategories : M (list CategoryConfig) :=
  unstable_cache (cached_categories cache)
    (invoke Call_getCategories (getCategories backend))
    [lit "categories"].

Definition getCachedProductCategories : M (list jsstring) :=
  unstable_cache (cached_product_categories cache)
    (invoke Call_getActiveProductCategories (getActiveProductCategories backend))
    [lit "active-product-categories"].

Definition search_key (resolved : gmap string ParamValue) : list jsstring :=
  [lit "search-active-products"; param_q resolved;
   str_or (Some (param_category resolved)) (lit "all"); param_sort resolved;
   String_of_Number (param_page resolved); String_of_Number (Int PAGE_SIZE)].

Definition cachedSearch (resolved : gmap string ParamValue) : M SearchResult :=
  unstable_cache (cached_products cache)
    (invoke (Call_searchActiveProducts (search_args resolved))
       (searchActiveProducts backend (search_args resolved)))
    (search_key resolved).

(** The entry of the ratings read, parsed. *)
Definition ratings_store (key : jsstring) : option (Entry RatingsValue) :=
  match cached_ratings cache key with
  | Some e => Some {| parsed := IsPlainObject; stale := stale e |}
  | None => None
  end.

Definition getProductRatings_value (sortedIds : list jsstring) : Outcome RatingsValue :=
  match getProductRatings backend sortedIds with
  | Returned m => Returned (IsMap m)
  | Thrown => Thrown
  end.

Definition cachedRatings (sortedIds : list jsstring) : M RatingsValue :=
  unstable_cache ratings_store
    (invoke (Call_getProductRatings sortedIds) (getProductRatings_value sortedIds))
    (lit "product-ratings" :: sortedIds).

Definition search_fallback (resolved : gmap string ParamValue) : SearchResult :=
  {| items := Some []; r_total := Some 0; r_page := param_page resolved;
     r_pageSize := PAGE_SIZE |}.

Definition Home (searchParams : option (gmap string ParamValue))
  : M (@ViewModel Announcement Order) :=
  let resolved := resolve searchParams in
  let q := param_q resolved in
  let category := param_category resolved in
  let sort := param_sort resolved in
  let page := param_page resolved in
  (* auth() is the first element of the array of promises *)
  let* session_p :=
    match auth_failure, auth backend with
    | Throws, Thrown => invoke Call_auth Thrown
    | _, o => settle (invoke Call_auth o)
    end in
  let* productsResult := catch (cachedSearch resolved) (search_fallback resolved) in
  let* announcement := catch getCachedAnnouncement None in
  let* visitorCount := catch getCachedVisitorCount 0 in
  let* categoryConfig := bind (catch getCachedCategories []) new_array in
  let* productCategories := catch getCachedProductCategories [] in
  let* session := await session_p in
  let products := default [] (items productsResult) in
  let total := Z_or (r_total productsResult) 0 in
  let sortedIds := sortedIds products in
  let* ratingsMap := catch (cachedRatings sortedIds) (IsMap ∅) in
  let* productsWithRatings := await (map_outcome (enrich_or_throw ratingsMap) products) in
  let* pendingOrders :=
    match session_user_id session with
    | Some uid =>
        catch (invoke (Call_getUserPendingOrders uid)
                 (getUserPendingOrders backend uid)) []
    | None => ret []
    end in
  let* sorted := sort_array sortOrder_le categoryConfig in
  let* sorted_elements := read_array sorted in
  let categoryNames := List.map name sorted_elements in
  let extraCategories := extraCategories categoryNames productCategories in
  let categories := categoryNames ++ extraCategories in
  ret {| products := productsWithRatings;
         announcement := announcement;
         visitorCount := visitorCount;
         categories := categories;
         categoryConfig := categoryConfig;
         pendingOrders := pendingOrders;
         filters := {| f_q := q; f_category := truthy_string (Some category);
                       f_sort := sort |};
         pagination := {| page := page; pageSize := PAGE_SIZE; total := total |} |}.

(** The products of the search, of its cache entry or of its fallback. *)
Definition found_products (resolved : gmap string ParamValue) : list Product :=
  default []
    (items (served (cached_products cache) (search_key resolved)
              (searchActiveProducts backend (search_args resolved))
              (search_fallback resolved))).

(** The calls of the five cached reads of the fan-out, latest first. *)
Definition fan_out_calls (resolved : gmap string ParamValue) : list Call :=
  producer_calls (cached_product_categories cache) [lit "active-product-categories"]
    Call_getActiveProductCategories
  ++ producer_calls (cached_categories cache) [lit "categories"] Call_getCategories
  ++ producer_calls (cached_visitors cache) [lit "visitor-count"] Call_getVisitorCount
  ++ producer_calls (cached_announcement cache) [lit "active-announcement"]
       Call_getActiveAnnouncement
  ++ producer_calls (cached_products cache) (search_key resolved)
       (Call_searchActiveProducts (search_args resolved)).
End Handler.

End Framework.

(** The cache of the specification that gives back what the entries of a
    cache of the framework parse to; for one without an entry of the
    ratings read. *)
Definition typed_cache {Announcement : Type} (cache : @Framework.Cache Announcement)
  : @Cache Announcement :=
  {| cached_products :=
       fun k => Framework.parsed <$> Framework.cached_products cache (Framework.join k);
     cached_announcement :=
       fun k => Framework.parsed <$> Framework.cached_announcement cache (Framework.join k);
     cached_visitors :=
       fun k => Framework.parsed <$> Framework.cached_visitors cache (Framework.join k);
     cached_categories :=
       fun k => Framework.parsed <$> Framework.cached_categories cache (Framework.join k);
     cached_product_categories :=
       fun k =>
         Framework.parsed <$> Framework.cached_product_categories cache (Framework.join k);
     cached_ratings := fun _ => None |}.

(** A cache of the framework that holds nothing but a fresh entry of the
    ratings read, under every key. *)
Definition ratings_cached : @Framework.Cache unit :=
  {| Framework.cached_products := fun _ => None;
     Framework.cached_announcement := fun _ => None;
     Framework.cached_visitors := fun _ => None;
     Framework.cached_categories := fun _ => None;
     Framework.cached_product_categories := fun _ => None;
     Framework.cached_ratings := fun _ => Some {| Framework.parsed := tt;
                                                  Framework.stale := false |} |}.

Definition nothing_cached : @Framework.Cache unit :=
  {| Framework.cached_products := fun _ => None;
     Framework.cached_announcement := fun _ => None;
     Framework.cached_visitors := fun _ => None;
     Framework.cached_categories := fun _ => None;
     Framework.cached_product_categories := fun _ => None;
     Framework.cached_ratings := fun _ => None |}.

(** * Properties *)

(** ** Sorting *)

Section SortFacts.
Context {A : Type} (le : A -> A -> bool).
Hypothesis le_total : forall a b, le a b = true \/ le b a = true.
Hypothesis le_trans : forall a b c, le a b = true -> le b c = true -> le a c = true.

Lemma insert_sorted_perm (x : A) (l : list A) :
  Permutation (insert_sorted le x l) (x :: l).
Proof using Type.
  induction l as [|y l IH]; simpl; [reflexivity|].
  destruct (le x y); [reflexivity|].
  rewrite IH. apply perm_swap.
Qed.

Lemma sort_by_perm (l : list A) : Permutation (sort_by le l) l.
Proof using Type.
  induction l as [|x l IH]; simpl; [reflexivity|].
  rewrite insert_sorted_perm. now constructor.
Qed.

Lemma insert_sorted_sorted (x : A) (l : list A) :
  StronglySorted (fun a b => le a b = true) l ->
  StronglySorted (fun a b => le a b = true) (insert_sorted le x l).
Proof using le_total le_trans.
  induction 1 as [|y l Hs IH Hy]; simpl.
  - repeat constructor.
  - destruct (le x y) eqn:E.
    + constructor; [now constructor|].
      constructor; [exact E|].
      eapply Forall_impl; [exact Hy|]. intros z Hz. simpl in Hz. eauto.
    + constructor; [exact IH|].
      eapply Permutation_Forall; [symmetry; apply insert_sorted_perm|].
      constructor; [|exact Hy].
      destruct (le_total x y) as [H|H]; congruence.
Qed.

Lemma sort_by_sorted (l : list A) :
  StronglySorted (fun a b => le a b = true) (sort_by le l).
Proof using le_total le_trans.
  induction l as [|x l IH]; simpl; [constructor|].
  now apply insert_sorted_sorted.
Qed.
End SortFacts.

Lemma StronglySorted_weaken {A : Type} (R1 R2 : A -> A -> Prop) (l : list A) :
  (forall a b, R1 a b -> R2 a b) -> StronglySorted R1 l -> StronglySorted R2 l.
Proof.
  intros HR. induction 1 as [|x l Hs IH Hx]; constructor; [exact IH|].
  eapply Forall_impl; [exact Hx|]. intros y. apply HR.
Qed.

(** Strings by code units: a total order. *)
Lemma string_le_total (a b : list N) : string_le a b = true \/ string_le b a = true.
Proof.
  revert b; induction a as [|x a IH]; intros [|y b]; simpl; auto.
  destruct (IH b) as [H|H]; rewrite H;
    destruct (N.ltb_spec x y), (N.ltb_spec y x), (N.eqb_spec x y), (N.eqb_spec y x);
    simpl; auto; lia.
Qed.

Lemma string_le_trans (a b c : list N) :
  string_le a b = true -> string_le b c = true -> string_le a c = true.
Proof.
  revert b c; induction a as [|x a IH]; intros [|y b] [|z c]; simpl; auto; try discriminate.
  intros H1 H2.
  apply orb_true_iff in H1, H2. apply orb_true_iff.
  destruct H1 as [H1|H1], H2 as [H2|H2];
    rewrite ?andb_true_iff, ?N.ltb_lt, ?N.eqb_eq in *.
  - left; lia.
  - left; destruct H2; subst; lia.
  - left; destruct H1; subst; lia.
  - right. destruct H1, H2; subst. split; eauto.
Qed.

Lemma string_le_antisym (a b : list N) :
  string_le a b = true -> string_le b a = true -> a = b.
Proof.
  revert b; induction a as [|x a IH]; intros [|y b]; simpl; auto; try discriminate.
  intros H1 H2.
  apply orb_true_iff in H1, H2.
  destruct H1 as [H1|H1], H2 as [H2|H2];
    rewrite ?andb_true_iff, ?N.ltb_lt, ?N.eqb_eq in *;
    destruct_and?; subst; try lia.
  f_equal; auto.
Qed.

Lemma sort_strings_perm (l : list (list N)) : Permutation (sort_strings l) l.
Proof. apply sort_by_perm. Qed.

Lemma sort_strings_sorted (l : list (list N)) :
  StronglySorted (fun a b => string_le a b = true) (sort_strings l).
Proof. apply sort_by_sorted; [apply string_le_total | apply string_le_trans]. Qed.

(** Two sorted arrangements of the same strings are the same list. *)
Lemma sorted_strings_unique (l1 l2 : list (list N)) :
  StronglySorted (fun a b => string_le a b = true) l1 ->
  StronglySorted (fun a b => string_le a b = true) l2 ->
  Permutation l1 l2 -> l1 = l2.
Proof.
  intros H1; revert l2; induction H1 as [|x l1 Hs IH Hx]; intros l2 H2 HP.
  - now apply Permutation_nil in HP.
  - destruct H2 as [|y l2 Hs2 Hy].
    + symmetry in HP. now apply Permutation_nil in HP.
    + assert (x = y) as ->.
      { assert (Hin1 : In x (y :: l2)) by (eapply Permutation_in; [exact HP | now left]).
        assert (Hin2 : In y (x :: l1))
          by (eapply Permutation_in; [symmetry; exact HP | now left]).
        destruct Hin1 as [->|Hin1]; [reflexivity|].
        destruct Hin2 as [->|Hin2]; [reflexivity|].
        rewrite Forall_forall in Hx, Hy.
        apply string_le_antisym.
        - apply Hx. now apply list_elem_of_In.
        - apply Hy. now apply list_elem_of_In. }
      f_equal. apply IH; [exact Hs2|]. eapply Permutation_cons_inv; exact HP.
Qed.

Lemma sort_strings_permutation_invariant (l1 l2 : list (list N)) :
  Permutation l1 l2 -> sort_strings l1 = sort_strings l2.
Proof.
  intros HP. apply sorted_strings_unique; try apply sort_strings_sorted.
  now rewrite !sort_strings_perm.
Qed.

(** The category sort: ascending [sortOrder], stable. *)
Lemma sortOrder_le_spec (a b : CategoryConfig) :
  sortOrder_le a b = true <-> sortOrder_or_0 a <= sortOrder_or_0 b.
Proof. unfold sortOrder_le, compare_sortOrder. rewrite Z.leb_le. lia. Qed.

Lemma sort_by_sortOrder_sorted (l : list CategoryConfig) :
  StronglySorted (fun a b => sortOrder_or_0 a <= sortOrder_or_0 b)
    (sort_by sortOrder_le l).
Proof.
  eapply StronglySorted_weaken; [|apply (sort_by_sorted sortOrder_le)].
  - intros a b. apply sortOrder_le_spec.
  - intros a b. rewrite !sortOrder_le_spec. lia.
  - intros a b c. rewrite !sortOrder_le_spec. lia.
Qed.

Lemma sort_by_sortOrder_stable (k : Z) (l : list CategoryConfig) :
  List.filter (fun c => sortOrder_or_0 c =? k) (sort_by sortOrder_le l)
  = List.filter (fun c => sortOrder_or_0 c =? k) l.
Proof.
  induction l as [|x l IH]; simpl; [reflexivity|].
  rewrite <- IH. generalize (sort_by sortOrder_le l) as s. clear IH.
  induction s as [|y s IHs]; simpl; [reflexivity|].
  destruct (sortOrder_le x y) eqn:E; simpl; [reflexivity|].
  rewrite IHs.
  assert (sortOrder_or_0 y < sortOrder_or_0 x).
  { destruct (Z.le_gt_cases (sortOrder_or_0 x) (sortOrder_or_0 y)) as [H|H]; [|lia].
    apply sortOrder_le_spec in H. congruence. }
  destruct (Z.eqb_spec (sortOrder_or_0 x) k), (Z.eqb_spec (sortOrder_or_0 y) k);
    try reflexivity; lia.
Qed.

(** ** The monad *)

Lemma catch_cached {A : Type} (store : list jsstring -> option A) (c : Call)
    (o : Outcome A) (key : list jsstring) (d : A) (w : World) :
  catch (unstable_cache store (invoke c o) key) d w
  = (Returned (or_fallback (read_outcome store key o) d),
     {| calls := miss_calls store key c ++ calls w; arrays := arrays w |}).
Proof.
  unfold catch, unstable_cache, read_outcome, miss_calls, invoke, ret.
  destruct (store key); [destruct w|destruct o]; reflexivity.
Qed.

Lemma catch_invoke {A : Type} (c : Call) (o : Outcome A) (d : A) (w : World) :
  catch (invoke c o) d w
  = (Returned (or_fallback o d), {| calls := c :: calls w; arrays := arrays w |}).
Proof. unfold catch, invoke. destruct o; reflexivity. Qed.

Lemma settle_invoke {A : Type} (c : Call) (o : Outcome A) (w : World) :
  settle (invoke c o) w
  = (Returned o, {| calls := c :: calls w; arrays := arrays w |}).
Proof. reflexivity. Qed.

Section HomeRun.
Context {Announcement Order : Type}.
Variable String_of_Number : Number -> jsstring.
Variable backend : @Backend Announcement Order.
Variable cache : @Cache Announcement.
Variable searchParams : option (gmap string ParamValue).

Let resolved := resolve searchParams.
Let run := Home String_of_Number backend cache searchParams initial_world.

(** When the session read returns, so does [Home]. *)
Lemma Home_run (session : option Session) :
  auth backend = Returned session ->
  run = (Returned (Home_view String_of_Number backend cache resolved session),
         {| calls := Home_calls String_of_Number backend cache resolved session;
            arrays := [sort_by sortOrder_le (or_fallback (categories_read backend cache) [])] |}).
Proof using Type.
  intros Hauth. subst run resolved. unfold Home.
  cbv [bind].
  unfold cachedSearch, getCachedAnnouncement, getCachedVisitorCount,
    getCachedCategories, getCachedProductCategories, cachedRatings.
  rewrite Hauth, settle_invoke. cbv iota beta.
  do 4 (rewrite catch_cached; cbn [calls arrays]; cbv iota beta).
  unfold new_array. cbn [calls arrays initial_world length app].
  rewrite catch_cached; cbn [calls arrays]; cbv iota beta.
  unfold await. cbv iota beta.
  rewrite catch_cached; cbn [calls arrays]; cbv iota beta.
  unfold Home_view, Home_calls, pending_read.
  destruct (session_user_id session) as [uid|].
  - rewrite catch_invoke. reflexivity.
  - reflexivity.
Qed.
End HomeRun.

(** When the session read throws, nothing catches it. *)
Lemma Home_auth_throws {Announcement Order : Type} (S : Number -> jsstring)
    (backend : @Backend Announcement Order) (cache : @Cache Announcement)
    (searchParams : option (gmap string ParamValue)) :
  auth backend = Thrown ->
  fst (Home S backend cache searchParams initial_world) = Thrown.
Proof.
  intros Hauth. unfold Home. cbv [bind].
  unfold cachedSearch, getCachedAnnouncement, getCachedVisitorCount,
    getCachedCategories, getCachedProductCategories.
  rewrite Hauth, settle_invoke. cbv iota beta.
  do 4 (rewrite catch_cached; cbn [calls arrays]; cbv iota beta).
  unfold new_array. cbn [calls arrays initial_world length app].
  rewrite catch_cached. reflexivity.
Qed.

Lemma read_outcome_thrown {A : Type} (store : list jsstring -> option A)
    (key : list jsstring) (o : Outcome A) :
  read_outcome store key o = Thrown <-> store key = None /\ o = Thrown.
Proof.
  unfold read_outcome. destruct (store key); split; intros H.
  - discriminate.
  - destruct H; discriminate.
  - auto.
  - apply H.
Qed.

(** ** The page number *)

Lemma page_normalised (x : Number) :
  max_1 (number_or x (Int 1)) =
    match x with
    | Int z => Int (Z.max 1 z)
    | PosInf => PosInf
    | NaN | NegInf => Int 1
    end.
Proof. destruct x as [| | |[|z|z]]; reflexivity. Qed.

Lemma double_of_nat_exact (n : Z) : n < 2 ^ 53 -> double_of_nat n = Int n.
Proof.
  intros H. unfold double_of_nat.
  destruct (Z.ltb_spec n (2 ^ 53)); [reflexivity | lia].
Qed.

(** From [2^1024 - 2^970] on, and only from there, the nearest double is
    [+Infinity]. *)
Lemma double_of_nat_infinite (n : Z) :
  0 <= n -> (double_of_nat n = PosInf <-> 2 ^ 1024 - 2 ^ 970 <= n).
Proof.
  intros Hn. unfold double_of_nat.
  assert (H53 : 2 ^ 53 = 2 * 2 ^ 52) by reflexivity.
  assert (H52 : 0 < 2 ^ 52) by reflexivity.
  assert (HA : 0 < 2 ^ 970) by (apply Z.pow_pos_nonneg; lia).
  assert (H1024 : 2 ^ 1024 = 2 ^ 53 * (2 * 2 ^ 970)).
  { change 1024 with (53 + (1 + 970)). rewrite !Z.pow_add_r by lia. reflexivity. }
  assert (Hbig : 2 ^ 53 <= 2 ^ 970) by (apply Z.pow_le_mono_r; lia).
  destruct (Z.ltb_spec n (2 ^ 53)) as [Hsmall|Hlarge].
  { split; [discriminate|]. intros H. exfalso. nia. }
  set (k := Z.log2 n).
  assert (Hk : 2 ^ k <= n < 2 ^ (k + 1))
    by (replace (k + 1) with (Z.succ k) by lia; apply Z.log2_spec; lia).
  assert (Hk53 : 53 <= k).
  { change 53 with (Z.log2 (2 ^ 53)). apply Z.log2_le_mono. exact Hlarge. }
  set (sh := k - 52).
  rewrite Z.shiftr_div_pow2, Z.shiftl_mul_pow2 by lia.
  rewrite Z.shiftl_mul_pow2 by lia.
  assert (HP : 2 ^ sh = 2 * 2 ^ (sh - 1)).
  { replace sh with (1 + (sh - 1)) at 1 by lia. rewrite Z.pow_add_r by lia. reflexivity. }
  assert (Hhalf : 0 < 2 ^ (sh - 1)) by (apply Z.pow_pos_nonneg; lia).
  assert (H2k : 2 ^ k = 2 ^ 52 * 2 ^ sh).
  { replace k with (52 + sh) at 1 by lia. rewrite Z.pow_add_r by lia. reflexivity. }
  assert (H2k1 : 2 ^ (k + 1) = 2 ^ 53 * 2 ^ sh).
  { replace (k + 1) with (53 + sh) by lia. rewrite Z.pow_add_r by lia. reflexivity. }
  set (P := 2 ^ sh) in *. set (h := 2 ^ (sh - 1)) in *.
  pose proof (Z.div_mod n P ltac:(lia)) as Hdiv.
  pose proof (Z.mod_pos_bound n P ltac:(lia)) as Hmod.
  set (q := n / P) in *.
  assert (Hr : n - q * P = n mod P) by lia.
  rewrite Hr. set (r := n mod P) in *.
  assert (Hq : 2 ^ 52 <= q < 2 ^ 53) by nia.
  set (q' := if (h <? r) || (r =? h) && Z.odd q then q + 1 else q).
  assert (Hq' : q <= q' <= q + 1) by (subst q'; destruct (_ || _); lia).
  destruct (Z.lt_trichotomy k 1023) as [Hlt|[Heq|Hgt]].
  - assert (P <= 2 ^ 970) by (apply Z.pow_le_mono_r; lia).
    destruct (Z.leb_spec (2 ^ 1024) (q' * P)); split; try discriminate; intros; exfalso; nia.
  - assert (HP' : P = 2 * 2 ^ 970) by (subst P sh; rewrite Heq; reflexivity).
    assert (Hh : h = 2 ^ 970) by lia.
    destruct (Z.leb_spec (2 ^ 1024) (q' * P)) as [Hv|Hv]; split; try reflexivity;
      try discriminate.
    + intros _. assert (q' = 2 ^ 53) by nia. assert (Hqq : q = 2 ^ 53 - 1) by lia.
      assert (Hup : (h <? r) || (r =? h) && Z.odd q = true).
      { subst q'. destruct (_ || _); [reflexivity|lia]. }
      assert (h <= r).
      { apply orb_true_iff in Hup. destruct Hup as [Hup|Hup].
        - apply Z.ltb_lt in Hup. lia.
        - apply andb_true_iff in Hup. destruct Hup as [Hup _]. apply Z.eqb_eq in Hup. lia. }
      nia.
    + intros Hge. exfalso.
      assert (Hqq : q = 2 ^ 53 - 1) by nia.
      assert (Hrr : h <= r) by nia.
      assert (Hup : (h <? r) || (r =? h) && Z.odd q = true).
      { rewrite Hqq. change (Z.odd (2 ^ 53 - 1)) with true. rewrite andb_true_r.
        destruct (Z.ltb_spec h r); [reflexivity|]. cbn [orb]. apply Z.eqb_eq. lia. }
      subst q'. rewrite Hup in Hv. nia.
  - assert (2 ^ 1024 <= 2 ^ k) by (apply Z.pow_le_mono_r; lia).
    destruct (Z.leb_spec (2 ^ 1024) (q' * P)); split; try reflexivity; intros; nia.
Qed.

Lemma double_of_nat_cases (n : Z) :
  double_of_nat n = PosInf \/ exists v, double_of_nat n = Int v.
Proof.
  unfold double_of_nat. destruct (n <? 2 ^ 53); [eauto|].
  destruct (2 ^ 1024 <=? _); eauto.
Qed.

Lemma digits_prefix_digits (s : list N) : Forall (fun c => is_digit c = true) (digits_prefix s).
Proof.
  induction s as [|c s IH]; cbn [digits_prefix]; [constructor|].
  destruct (is_digit c) eqn:E; constructor; assumption.
Qed.

Lemma digits_fold_nonneg (ds : list N) (acc : Z) :
  Forall (fun c => is_digit c = true) ds -> 0 <= acc ->
  0 <= fold_left (fun a c => 10 * a + (Z.of_N c - 48)) ds acc.
Proof.
  intros H. revert acc.
  induction H as [|c ds Hc _ IH]; intros acc Hacc; cbn [fold_left]; [exact Hacc|].
  apply IH. unfold is_digit in Hc. apply andb_true_iff in Hc.
  destruct Hc as [Hc _]. apply N.leb_le in Hc. lia.
Qed.

Lemma digits_value_nonneg (s : list N) : 0 <= digits_value (digits_prefix s).
Proof. apply digits_fold_nonneg; [apply digits_prefix_digits|lia]. Qed.

(** [parseInt] makes [+Infinity] of unsigned digits from [2^1024 - 2^970]
    on, and of nothing else. *)
Lemma parseInt10_infinite (s : list N) :
  parseInt10 s = PosInf <->
  fst (parse_sign (trimStart s)) = false
  /\ 2 ^ 1024 - 2 ^ 970 <= digits_value (digits_prefix (snd (parse_sign (trimStart s)))).
Proof.
  unfold parseInt10. destruct (parse_sign (trimStart s)) as [neg s2]. cbn [fst snd].
  pose proof (digits_value_nonneg s2) as Hpos.
  pose proof (double_of_nat_infinite _ Hpos) as Hinf.
  destruct (digits_prefix s2) as [|d ds] eqn:E.
  - split; [discriminate|]. intros [_ H]. exfalso.
    change (digits_value []) with 0 in H.
    assert (0 < 2 ^ 970) by (apply Z.pow_pos_nonneg; lia).
    assert (2 ^ 1024 = 2 ^ 54 * 2 ^ 970)
      by (change 1024 with (54 + 970); rewrite Z.pow_add_r by lia; reflexivity).
    assert (2 ^ 54 = 18014398509481984) by reflexivity. nia.
  - destruct neg.
    + split; [|intros [H _]; discriminate].
      destruct (double_of_nat_cases (digits_value (d :: ds))) as [H|[v H]];
        rewrite H; discriminate.
    + rewrite Hinf. tauto.
Qed.

Lemma param_page_at_least_1 (resolved : gmap string ParamValue) :
  param_page resolved = PosInf
  \/ exists n, param_page resolved = Int n /\ 1 <= n.
Proof.
  unfold param_page. rewrite page_normalised.
  destruct (parseInt10 _); eauto with lia.
Qed.

Lemma elem_of_miss_calls {A : Type} (store : list jsstring -> option A)
    (key : list jsstring) (c c' : Call) :
  c' ∈ miss_calls store key c -> c' = c.
Proof.
  unfold miss_calls. destruct (store key); intros H.
  - now apply elem_of_nil in H.
  - now apply list_elem_of_singleton in H.
Qed.

(** ** The ids of the ratings read *)

Lemma elem_of_productIds (i : jsstring) (l : list Product) :
  i ∈ productIds l <-> i <> [] /\ exists p, p ∈ l /\ p_id p = Some i.
Proof.
  unfold productIds. rewrite list_elem_of_omap. split.
  - intros (p & Hp & Hi). unfold truthy_string in Hi.
    destruct (p_id p) as [[|c s]|] eqn:E; try discriminate.
    injection Hi as <-. split; [discriminate|]. eauto.
  - intros (Hne & p & Hp & Hi). exists p. split; [exact Hp|].
    rewrite Hi. destruct i; [contradiction|reflexivity].
Qed.

Lemma productIds_perm (l1 l2 : list Product) :
  Permutation l1 l2 -> Permutation (productIds l1) (productIds l2).
Proof. intros H. unfold productIds. now rewrite H. Qed.

Lemma sortedIds_permutation_invariant (l1 l2 : list Product) :
  Permutation l1 l2 -> sortedIds l1 = sortedIds l2.
Proof.
  intros H. apply sort_strings_permutation_invariant, productIds_perm, H.
Qed.

(** ** The merged categories *)

Lemma includes_perm (l1 l2 : list jsstring) (c : jsstring) :
  Permutation l1 l2 -> includes l1 c = includes l2 c.
Proof.
  intros H. unfold includes. apply bool_decide_ext. now rewrite H.
Qed.

Lemma extraCategories_perm (names1 names2 observed : list jsstring) :
  Permutation names1 names2 ->
  extraCategories names1 observed = extraCategories names2 observed.
Proof.
  intros H. unfold extraCategories. f_equal.
  apply filter_ext. intros c. f_equal. now apply includes_perm.
Qed.

Lemma merged_categories_NoDup (names observed : list jsstring) :
  NoDup names -> NoDup observed ->
  NoDup (names ++ extraCategories names observed).
Proof.
  intros Hn Ho. apply NoDup_app. split; [exact Hn|]. split.
  - intros c Hc Hex. unfold extraCategories in Hex.
    rewrite sort_strings_perm in Hex.
    apply list_elem_of_In, filter_In in Hex. destruct Hex as [_ Hex].
    unfold includes in Hex. rewrite bool_decide_eq_true_2 in Hex by exact Hc.
    discriminate.
  - unfold extraCategories. rewrite sort_strings_perm.
    apply NoDup_ListNoDup, List.NoDup_filter, NoDup_ListNoDup, Ho.
Qed.

Lemma map_base_enrich (ratingsMap : gmap (list N) Rating) (l : list Product) :
  List.map base (List.map (enrich ratingsMap) l) = l.
Proof. rewrite map_map. apply map_id. Qed.

(** ** Matching and replacing *)

Lemma match_here_Lit_eq (c : N) (items : list item) (s : list N) (n : nat) (g : list N) :
  match_here items s = Some (n, g) ->
  match_here (Lit c :: items) (c :: s) = Some (S n, g).
Proof. intros H. cbn [match_here]. now rewrite N.eqb_refl, H. Qed.

Lemma match_here_Lit_ne (c d : N) (items : list item) (s : list N) :
  c <> d -> match_here (Lit c :: items) (d :: s) = None.
Proof.
  intros H. cbn [match_here]. destruct (N.eqb_spec c d); [contradiction|reflexivity].
Qed.

Lemma match_here_LazyDots (captured : bool) (items : list item) (s : list N) :
  match_here (LazyDots captured :: items) s =
    match match_here items s with
    | Some (n, g) => Some (n, if captured then [] else g)
    | None =>
        match s with
        | d :: s' =>
            if dot d
            then match match_here (LazyDots captured :: items) s' with
                 | Some (n, g) => Some (S n, if captured then d :: g else g)
                 | None => None
                 end
            else None
        | [] => None
        end
    end.
Proof. destruct s; reflexivity. Qed.

(** The lazy star stops at the first [c] when the pattern goes on from
    there. *)
Lemma lazy_until (captured : bool) (c : N) (items : list item)
    (a rest : list N) (n : nat) (g : list N) :
  Forall (fun d => dot d = true /\ d <> c) a ->
  match_here (Lit c :: items) rest = Some (n, g) ->
  match_here (LazyDots captured :: Lit c :: items) (a ++ rest)
  = Some ((length a + n)%nat, if captured then a else g).
Proof.
  intros Ha Hrest. induction Ha as [|d a [Hdot Hne] Ha IH].
  - rewrite match_here_LazyDots. cbn [app]. rewrite Hrest. reflexivity.
  - rewrite match_here_LazyDots. cbn [app].
    rewrite match_here_Lit_ne by congruence.
    rewrite Hdot, IH. destruct captured; reflexivity.
Qed.

Lemma replace_from_skip (items : list item) (repl : list rpart) (l rest : list N) :
  replace_from items repl (length l) (l ++ rest) = replace_from items repl 0 rest.
Proof. induction l as [|c l IH]; [reflexivity|exact IH]. Qed.

Lemma replace_from_skip_eq (items : list item) (repl : list rpart) (n : nat)
    (l rest s : list N) :
  s = l ++ rest -> n = length l ->
  replace_from items repl n s = replace_from items repl 0 rest.
Proof. intros -> ->. apply replace_from_skip. Qed.

(** No match starts where the first character of the pattern is not. *)
Lemma replace_from_no_start (c : N) (items : list item) (repl : list rpart)
    (pre rest : list N) :
  c ∉ pre ->
  replace_from (Lit c :: items) repl 0 (pre ++ rest)
  = pre ++ replace_from (Lit c :: items) repl 0 rest.
Proof.
  induction pre as [|d pre IH]; intros Hc; [reflexivity|].
  apply not_elem_of_cons in Hc. destruct Hc as [Hne Hc].
  cbn [app replace_from]. rewrite match_here_Lit_ne by exact Hne.
  now rewrite IH.
Qed.

Lemma replace_all_no_start (c : N) (items : list item) (repl : list rpart)
    (s : list N) :
  c ∉ s -> replace_all (Lit c :: items) repl s = s.
Proof.
  intros Hc. unfold replace_all.
  rewrite <- (app_nil_r s) at 1. rewrite replace_from_no_start by exact Hc.
  cbn. apply app_nil_r.
Qed.

(** A whole image, and a whole link, is one match. *)
Lemma match_here_image (alt url post : list N) :
  Forall (fun d => dot d = true /\ d <> ch "]") alt ->
  Forall (fun d => dot d = true /\ d <> ch ")") url ->
  match_here re_image
    (ch "!" :: ch "[" :: alt ++ ch "]" :: ch "(" :: url ++ ch ")" :: post)
  = Some (S (S (length alt + S (S (length url + 1)))), []).
Proof.
  intros Halt Hurl. unfold re_image.
  do 2 apply match_here_Lit_eq.
  apply (lazy_until false) with (g := []); [exact Halt|].
  do 2 apply match_here_Lit_eq.
  apply (lazy_until false) with (g := []); [exact Hurl|]. reflexivity.
Qed.

Lemma match_here_link (text url post : list N) :
  Forall (fun d => dot d = true /\ d <> ch "]") text ->
  Forall (fun d => dot d = true /\ d <> ch ")") url ->
  match_here re_link (ch "[" :: text ++ ch "]" :: ch "(" :: url ++ ch ")" :: post)
  = Some (S (length text + S (S (length url + 1))), text).
Proof.
  intros Htext Hurl. unfold re_link.
  apply match_here_Lit_eq.
  apply (lazy_until true) with (g := []); [exact Htext|].
  do 2 apply match_here_Lit_eq.
  apply (lazy_until false) with (g := []); [exact Hurl|]. reflexivity.
Qed.

Lemma replace_image (pre alt url post : list N) :
  ch "!" ∉ pre ->
  Forall (fun d => dot d = true /\ d <> ch "]") alt ->
  Forall (fun d => dot d = true /\ d <> ch ")") url ->
  replace_all re_image [RText []]
    (pre ++ lit "![" ++ alt ++ lit "](" ++ url ++ lit ")" ++ post)
  = pre ++ replace_all re_image [RText []] post.
Proof.
  intros Hpre Halt Hurl. unfold replace_all, re_image.
  rewrite replace_from_no_start by exact Hpre. f_equal.
  change (lit "![" ++ alt ++ lit "](" ++ url ++ lit ")" ++ post)
    with (ch "!" :: ch "[" :: alt ++ ch "]" :: ch "(" :: url ++ ch ")" :: post).
  cbn [replace_from]. fold re_image.
  rewrite (match_here_image alt url post Halt Hurl). cbn [expand List.map concat app].
  apply replace_from_skip_eq with (l := alt ++ ch "]" :: ch "(" :: url ++ [ch ")"]).
  - rewrite <- !app_assoc. cbn [app]. rewrite <- app_assoc. reflexivity.
  - rewrite length_app. cbn [length]. rewrite length_app. reflexivity.
Qed.

Lemma replace_link (pre text url post : list N) :
  ch "[" ∉ pre ->
  Forall (fun d => dot d = true /\ d <> ch "]") text ->
  Forall (fun d => dot d = true /\ d <> ch ")") url ->
  replace_all re_link [RGroup1]
    (pre ++ lit "[" ++ text ++ lit "](" ++ url ++ lit ")" ++ post)
  = pre ++ text ++ replace_all re_link [RGroup1] post.
Proof.
  intros Hpre Htext Hurl. unfold replace_all, re_link.
  rewrite replace_from_no_start by exact Hpre. f_equal.
  change (lit "[" ++ text ++ lit "](" ++ url ++ lit ")" ++ post)
    with (ch "[" :: text ++ ch "]" :: ch "(" :: url ++ ch ")" :: post).
  cbn [replace_from]. fold re_link.
  rewrite (match_here_link text url post Htext Hurl).
  cbn [expand List.map concat app]. rewrite app_nil_r. f_equal.
  apply replace_from_skip_eq with (l := text ++ ch "]" :: ch "(" :: url ++ [ch ")"]).
  - rewrite <- !app_assoc. cbn [app]. rewrite <- app_assoc. reflexivity.
  - rewrite length_app. cbn [length]. rewrite length_app. reflexivity.
Qed.

Lemma replace_markup (s : list N) :
  replace_all re_markup [RText space] s
  = List.map (fun c => if is_markup c then 32%N else c) s.
Proof.
  unfold replace_all, re_markup. induction s as [|c s IH]; [reflexivity|].
  cbn [replace_from match_here List.map]. destruct (is_markup c).
  - cbn [expand List.map concat app space]. now rewrite IH.
  - now rewrite IH.
Qed.

Lemma match_here_Plus (p : N -> bool) (s : list N) :
  match_here [Plus p] s =
    match run_length p s with
    | O => None
    | S n => Some (S n, [])
    end.
Proof.
  induction s as [|c s IH]; [reflexivity|].
  change (match_here [Plus p] (c :: s))
    with (if p c
          then match match_here [Plus p] s with
               | Some (n, g) => Some (S n, g)
               | None => Some (1%nat, [])
               end
          else None).
  cbn [run_length]. destruct (p c); [|reflexivity].
  rewrite IH. destruct (run_length p s); reflexivity.
Qed.

Lemma replace_spaces_run (s : list N) :
  replace_from re_spaces [RText space] 0 s = squeeze false s
  /\ replace_from re_spaces [RText space] (run_length is_space s) s = squeeze true s.
Proof.
  unfold re_spaces. induction s as [|c s [IH0 IH1]]; [split; reflexivity|].
  assert (H0 : replace_from [Plus is_space] [RText space] 0 (c :: s)
               = squeeze false (c :: s)).
  { cbn [replace_from squeeze]. rewrite match_here_Plus. cbn [run_length].
    destruct (is_space c).
    - cbn [expand List.map concat app space]. now rewrite IH1.
    - now rewrite IH0. }
  split; [exact H0|].
  cbn [run_length]. destruct (is_space c) eqn:E.
  - cbn [replace_from squeeze]. now rewrite E.
  - rewrite H0. cbn [squeeze]. now rewrite E.
Qed.

Lemma replace_spaces (s : list N) :
  replace_all re_spaces [RText space] s = squeeze false s.
Proof. apply replace_spaces_run. Qed.

Lemma is_space_32 : is_space 32 = true.
Proof. reflexivity. Qed.

Lemma squeeze_chars (b : bool) (s : list N) :
  Forall (fun c => c = 32%N \/ (c ∈ s /\ is_space c = false)) (squeeze b s).
Proof.
  revert b; induction s as [|d s IH]; intros b; cbn [squeeze]; [constructor|].
  assert (Hw : forall b', Forall (fun c => c = 32%N \/ (c ∈ d :: s /\ is_space c = false))
                            (squeeze b' s)).
  { intros b'. eapply Forall_impl; [apply IH|]. cbn beta.
    intros c [->|[Hc Hs]]; [now left|right]. split; [now right|exact Hs]. }
  destruct (is_space d) eqn:E; [destruct b|].
  - apply Hw.
  - constructor; [now left|apply Hw].
  - constructor; [|apply Hw]. right. split; [now left|exact E].
Qed.

Lemma squeeze_head (s : list N) (c : N) :
  head (squeeze true s) = Some c -> is_space c = false.
Proof.
  induction s as [|d s IH]; cbn [squeeze]; [discriminate|].
  destruct (is_space d) eqn:E; [exact IH|].
  cbn. intros [= <-]. exact E.
Qed.

Lemma squeeze_single_spaced (b : bool) (s : list N) :
  single_spaced (squeeze b s) = true.
Proof.
  revert b; induction s as [|d s IH]; intros b; cbn [squeeze]; [reflexivity|].
  destruct (is_space d) eqn:E; [destruct b|].
  - apply IH.
  - cbn [single_spaced]. specialize (IH true).
    destruct (squeeze true s) as [|e t] eqn:Et; [reflexivity|].
    rewrite IH, andb_true_r.
    rewrite (squeeze_head s e) by (rewrite Et; reflexivity).
    now rewrite andb_false_r.
  - cbn [single_spaced]. destruct (squeeze false s) as [|e t] eqn:Et; [reflexivity|].
    rewrite E. cbn [andb negb]. rewrite <- Et. apply IH.
Qed.

(** ** Trimming *)

Lemma trimStart_suffix (s : list N) : exists a, s = a ++ trimStart s.
Proof.
  induction s as [|c s [a IH]]; [now exists []|]. cbn [trimStart].
  destruct (is_space c); [|now exists []].
  exists (c :: a). cbn [app]. now rewrite <- IH.
Qed.

Lemma trimStart_head (s : list N) (c : N) :
  head (trimStart s) = Some c -> is_space c = false.
Proof.
  induction s as [|d s IH]; cbn [trimStart]; [discriminate|].
  destruct (is_space d) eqn:E; [exact IH|]. cbn. intros [= <-]. exact E.
Qed.

Lemma trimEnd_prefix (s : list N) : exists b, s = trimEnd s ++ b.
Proof.
  unfold trimEnd. destruct (trimStart_suffix (rev s)) as [a Ha].
  exists (rev a). rewrite <- rev_app_distr, <- Ha. symmetry. apply rev_involutive.
Qed.

Lemma trim_infix (s : list N) : exists a b, s = a ++ trim s ++ b.
Proof.
  unfold trim. destruct (trimStart_suffix s) as [a Ha].
  destruct (trimEnd_prefix (trimStart s)) as [b Hb].
  exists a, b. now rewrite <- Hb.
Qed.

Lemma trim_head (s : list N) (c : N) : head (trim s) = Some c -> is_space c = false.
Proof.
  unfold trim. destruct (trimEnd_prefix (trimStart s)) as [b Hb].
  intros H. apply (trimStart_head s). rewrite Hb.
  destruct (trimEnd (trimStart s)); [discriminate|exact H].
Qed.

Lemma trim_last (s : list N) (c : N) : last (trim s) = Some c -> is_space c = false.
Proof.
  unfold trim, trimEnd.
  destruct (trimStart (rev (trimStart s))) as [|d t] eqn:E; [discriminate|].
  cbn [rev]. rewrite last_snoc. intros [= <-].
  apply (trimStart_head (rev (trimStart s))). now rewrite E.
Qed.

Lemma single_spaced_suffix (a s : list N) :
  single_spaced (a ++ s) = true -> single_spaced s = true.
Proof.
  induction a as [|c a IH]; [auto|]. cbn [app single_spaced].
  destruct (a ++ s) as [|d t] eqn:E.
  - destruct a; [|discriminate]. cbn in E. now subst.
  - intros H. apply andb_true_iff in H. apply IH, H.
Qed.

Lemma single_spaced_prefix (s b : list N) :
  single_spaced (s ++ b) = true -> single_spaced s = true.
Proof.
  induction s as [|c s IH]; [reflexivity|]. cbn [app single_spaced].
  destruct s as [|d s]; [reflexivity|]. cbn [app].
  intros H. apply andb_true_iff in H. destruct H as [H1 H2].
  rewrite H1. apply IH, H2.
Qed.

(** ** The model at work *)

Example parseInt10_examples :
  parseInt10 (lit "42") = Int 42
  /\ parseInt10 (lit "  +7 apples") = Int 7
  /\ parseInt10 (lit "-5") = Int (-5)
  /\ parseInt10 (lit "12abc") = Int 12
  /\ parseInt10 (lit "abc") = NaN
  /\ parseInt10 (lit "") = NaN
  /\ parseInt10 (lit "1e3") = Int 1
  /\ parseInt10 (lit "9007199254740993") = Int 9007199254740992.
Proof. repeat split; vm_compute; reflexivity. Qed.

Example stripMarkdown_examples :
  stripMarkdown (lit "# Title") = lit "Title"
  /\ stripMarkdown (lit "a  -  b") = lit "a b"
  /\ stripMarkdown (lit "[a](b) and [c](d)") = lit "a and c"
  /\ stripMarkdown (lit "![unclosed](x") = lit "![unclosed](x"
  /\ stripMarkdown (lit "") = lit "".
Proof. repeat split; vm_compute; reflexivity. Qed.

Example sort_examples :
  sort_strings [lit "b"; lit "B"; lit "a"; lit "ab"] = [lit "B"; lit "a"; lit "ab"; lit "b"]
  /\ List.map name
       (sort_by sortOrder_le
          [ {| name := lit "x"; sortOrder := Some 1 |};
            {| name := lit "y"; sortOrder := None |};
            {| name := lit "z"; sortOrder := Some 1 |};
            {| name := lit "w"; sortOrder := Some 0 |} ])
     = [lit "y"; lit "w"; lit "x"; lit "z"].
Proof. split; vm_compute; reflexivity. Qed.

(** A request of a signed-in user: the session, the search, the categories
    and the pending orders return, the ratings read fails. *)
Example Home_example :
  let backend :=
    sample_backend (Returned (sample_user "u1"))
      (Returned (sample_search [sample_product "p2"; sample_product "p1"]))
      (Returned sample_config) (Returned [lit "A"; lit "C"]) Thrown in
  exists vm w,
    Home no_digits backend empty_cache (sample_params "page" (lit "2")) initial_world
    = (Returned vm, w)
    /\ List.map stockCount (products vm) = [4; 4]
    /\ List.map descriptionPlain (products vm) = [lit "new"; lit "new"]
    /\ categories vm = [lit "A"; lit "B"; lit "C"]
    /\ pendingOrders vm = [tt]
    /\ page (pagination vm) = Int 2
    /\ total (pagination vm) = 2
    /\ List.filter (fun c => match c with Call_getProductRatings _ => true | _ => false end)
         (calls w)
       = [Call_getProductRatings [lit "p1"; lit "p2"]].
Proof.
  intros backend. eexists _, _. split; [apply Home_run; reflexivity|].
  repeat split; vm_compute; reflexivity.
Qed.

(** ** The handler *)

Section HomeFacts.
Context {Announcement Order : Type}.
Variable String_of_Number : Number -> jsstring.
Variable backend : @Backend Announcement Order.
Variable cache : @Cache Announcement.
Variable searchParams : option (gmap string ParamValue).
Variable session : option Session.
Hypothesis auth_returns : auth backend = Returned session.

Local Abbreviation resolved := (resolve searchParams).
Local Abbreviation run :=
  (Home String_of_Number backend cache searchParams initial_world).
Local Abbreviation found := (found_products String_of_Number backend cache resolved).

Lemma elem_of_Home_calls (c : Call) :
  c ∈ Home_calls String_of_Number backend cache resolved session ->
  c = Call_auth
  \/ c = Call_searchActiveProducts (search_args resolved)
  \/ c = Call_getActiveAnnouncement
  \/ c = Call_getVisitorCount
  \/ c = Call_getCategories
  \/ c = Call_getActiveProductCategories
  \/ c = Call_getProductRatings (sortedIds found)
  \/ exists uid, session_user_id session = Some uid /\ c = Call_getUserPendingOrders uid.
Proof using Type.
  unfold Home_calls. rewrite !elem_of_app.
  intros [H|[H|[H|[H|[H|[H|[H|H]]]]]]];
    try (apply elem_of_miss_calls in H; tauto).
  - destruct (session_user_id session) as [uid|].
    + apply list_elem_of_singleton in H. eauto 10.
    + now apply elem_of_nil in H.
  - apply list_elem_of_singleton in H. tauto.
Qed.

(** C5 (as amended). The page of the pagination is never NaN and never
    below 1. It is 1 when the raw [page] parameter is missing or not a
    single string, and when [parseInt] makes NaN, zero or a negative
    number of it; otherwise it is what [parseInt] makes of it: an integer
    of at least 1, or [+Infinity], which it is exactly when the parameter
    is a string whose unsigned leading digits are worth [2^1024 - 2^970]
    or more. The search is invoked with the same page. *)
Theorem Home_page_at_least_1 :
  exists vm w,
    run = (Returned vm, w)
    /\ page (pagination vm) <> NaN
    /\ (page (pagination vm) = PosInf
        \/ exists n, page (pagination vm) = Int n /\ 1 <= n)
    /\ match resolved !! "page"%string with
       | Some (PString s) =>
           match parseInt10 s with
           | Int z => page (pagination vm) = Int (Z.max 1 z)
           | PosInf => page (pagination vm) = PosInf
           | NaN | NegInf => page (pagination vm) = Int 1
           end
       | _ => page (pagination vm) = Int 1
       end
    /\ (page (pagination vm) = PosInf <->
        exists s,
          resolved !! "page"%string = Some (PString s)
          /\ fst (parse_sign (trimStart s)) = false
          /\ 2 ^ 1024 - 2 ^ 970
             <= digits_value (digits_prefix (snd (parse_sign (trimStart s)))))
    /\ a_page (search_args resolved) = page (pagination vm).
Proof using auth_returns.
  eexists _, _. split; [apply Home_run, auth_returns|]. cbn [Home_view pagination page].
  split; [|split; [apply param_page_at_least_1|split; [|split; [|reflexivity]]]].
  - destruct (param_page_at_least_1 resolved) as [H|(n & H & _)]; rewrite H; discriminate.
  - unfold param_page. rewrite page_normalised.
    destruct (resolved !! "page"%string) as [[s|l|]|]; cbn [string_or];
      try reflexivity.
    destruct (parseInt10 s); reflexivity.
  - unfold param_page. rewrite page_normalised.
    destruct (resolved !! "page"%string) as [[s|l|]|]; cbn [string_or].
    + split.
      * intros H. exists s. split; [reflexivity|]. apply parseInt10_infinite.
        destruct (parseInt10 s); congruence.
      * intros (s' & [= <-] & H). apply parseInt10_infinite in H. now rewrite H.
    + split; [discriminate|]. intros (s & H & _). discriminate.
    + split; [discriminate|]. intros (s & H & _). discriminate.
    + split; [discriminate|]. intros (s & H & _). discriminate.
Qed.

(** C6. The category of the filters is null when the raw [category]
    parameter is missing or not a single string, and when it is, trimmed,
    empty or "all"; otherwise it is the raw string trimmed. *)
Theorem Home_category_filter :
  exists vm w,
    run = (Returned vm, w)
    /\ f_category (filters vm) =
         match resolved !! "category"%string with
         | Some (PString s) =>
             if bool_decide (trim s = []) || bool_decide (trim s = lit "all")
             then None
             else Some (trim s)
         | _ => None
         end.
Proof using auth_returns.
  eexists _, _. split; [apply Home_run, auth_returns|]. cbn [Home_view filters f_category].
  unfold param_category, param_categoryParam.
  destruct (resolved !! "category"%string) as [[s|l|]|]; cbn [string_or];
    try reflexivity.
  destruct (trim s) as [|c t] eqn:E; [reflexivity|].
  rewrite (bool_decide_eq_false_2 (c :: t = [])) by discriminate.
  cbn [orb]. destruct (decide (c :: t = lit "all")) as [Heq|Hne].
  - rewrite (bool_decide_eq_true_2 _ Heq), bool_decide_eq_false_2 by tauto.
    reflexivity.
  - rewrite (bool_decide_eq_false_2 _ Hne), bool_decide_eq_true_2 by exact Hne.
    reflexivity.
Qed.

(** C4. When the product search fails, the handler returns a view model
    with no product, a total of 0, and the requested page and the page
    size in the pagination. *)
Theorem Home_search_failure :
  search_read String_of_Number backend cache resolved = Thrown ->
  exists vm w,
    run = (Returned vm, w)
    /\ products vm = []
    /\ total (pagination vm) = 0
    /\ page (pagination vm) = param_page resolved
    /\ pageSize (pagination vm) = PAGE_SIZE.
Proof using auth_returns.
  intros Hfail.
  eexists _, _. split; [apply Home_run, auth_returns|].
  unfold Home_view, found_products. rewrite Hfail. repeat split; reflexivity.
Qed.


(** C7. Without an authenticated user (no session, a session without a
    user, a user without an id or with an empty one), the pending orders
    of the view model are empty and [getUserPendingOrders] is not
    invoked. *)
Theorem Home_pending_orders_skipped :
  match session with
  | None => True
  | Some s =>
      match user s with
      | None => True
      | Some u => user_id u = None \/ user_id u = Some []
      end
  end ->
  exists vm w,
    run = (Returned vm, w)
    /\ pendingOrders vm = []
    /\ forall uid, Call_getUserPendingOrders uid ∉ calls w.
Proof using auth_returns.
  intros Hnone.
  assert (Hid : session_user_id session = None).
  { unfold session_user_id. destruct session as [s|]; [|reflexivity].
    destruct (user s) as [u|]; [|reflexivity].
    destruct Hnone as [-> | ->]; reflexivity. }
  eexists _, _. split; [apply Home_run, auth_returns|].
  cbn [Home_view pendingOrders calls]. unfold pending_read.
  rewrite Hid. split; [reflexivity|].
  intros uid Hin. apply elem_of_Home_calls in Hin.
  rewrite Hid in Hin.
  destruct Hin as [H|[H|[H|[H|[H|[H|[H|(u & H & _)]]]]]]]; discriminate.
Qed.

(** C10. The category-config array of the view model is the array that
    the read returned (or the empty fallback), sorted in place by the
    category merge: ascending in [sortOrder] (a missing one counting as
    0), with the same elements, those of equal [sortOrder] in their
    original order. The merged categories begin with its names. *)
Theorem Home_categoryConfig_sorted :
  exists vm w,
    run = (Returned vm, w)
    /\ categoryConfig_array vm w
        = sort_by sortOrder_le (or_fallback (categories_read backend cache) [])
    /\ StronglySorted (fun a b => sortOrder_or_0 a <= sortOrder_or_0 b)
         (categoryConfig_array vm w)
    /\ Permutation (categoryConfig_array vm w)
         (or_fallback (categories_read backend cache) [])
    /\ (forall k,
          List.filter (fun c => sortOrder_or_0 c =? k) (categoryConfig_array vm w)
          = List.filter (fun c => sortOrder_or_0 c =? k)
              (or_fallback (categories_read backend cache) []))
    /\ take (length (categoryConfig_array vm w)) (categories vm)
        = List.map name (categoryConfig_array vm w).
Proof using auth_returns.
  eexists _, _. split; [apply Home_run, auth_returns|].
  unfold categoryConfig_array. cbn [Home_view categoryConfig arrays categories].
  cbn [lookup list_lookup default].
  split; [reflexivity|].
  split; [apply sort_by_sortOrder_sorted|].
  split; [apply sort_by_perm|].
  split; [intros k; apply sort_by_sortOrder_stable|].
  rewrite <- (length_map name) at 1. apply take_app_length.
Qed.

(** C9 (as amended). The ids that the ratings read is invoked with, and
    keyed by, are the truthy ids of the found products in code-unit
    order: a sorted list with the same ids as often as they occur among
    the products, hence without duplicates when the products have
    distinct ids; products found in another order give the same list. *)
Theorem Home_ratings_ids_sorted :
  exists vm w,
    run = (Returned vm, w)
    /\ List.map base (products vm) = found
    /\ (forall ids, Call_getProductRatings ids ∈ calls w -> ids = sortedIds found)
    /\ (cached_ratings cache (lit "product-ratings" :: sortedIds found) = None ->
        Call_getProductRatings (sortedIds found) ∈ calls w)
    /\ StronglySorted (fun a b => string_le a b = true) (sortedIds found)
    /\ Permutation (sortedIds found) (productIds found)
    /\ (forall i, i ∈ sortedIds found <->
                  i <> [] /\ exists p, p ∈ found /\ p_id p = Some i)
    /\ (NoDup (productIds found) -> NoDup (sortedIds found))
    /\ (forall products', Permutation found products' ->
          sortedIds products' = sortedIds found).
Proof using auth_returns.
  eexists _, _. split; [apply Home_run, auth_returns|]. cbn [calls].
  split; [apply map_base_enrich|].
  split; [|split; [|split; [|split; [|split; [|split]]]]].
  - intros ids Hin. apply elem_of_Home_calls in Hin.
    destruct Hin as [H|[H|[H|[H|[H|[H|[H|(u & _ & H)]]]]]]]; try discriminate.
    now injection H.
  - intros Hmiss. unfold Home_calls, miss_calls at 1. rewrite Hmiss.
    rewrite !elem_of_app. right. left. apply list_elem_of_singleton. reflexivity.
  - apply sort_strings_sorted.
  - apply sort_strings_perm.
  - intros i. unfold sortedIds. rewrite sort_strings_perm. apply elem_of_productIds.
  - intros Hnd. unfold sortedIds. now rewrite sort_strings_perm.
  - intros products' HP. symmetry. now apply sortedIds_permutation_invariant.
Qed.

(** C2 (as amended). The merged categories are the names of the category
    config in ascending [sortOrder] (a missing one counting as 0, equal
    ones in their original order), followed by the product categories
    that are not among those names, in code-unit order. The list has no
    duplicates when neither the config names nor the product categories
    have any. For the config ("B", 2), ("A", 1) and the product
    categories "A", "C" it is "A", "B", "C". *)
Theorem Home_categories_merged :
  exists vm w,
    run = (Returned vm, w)
    /\ exists sorted extras,
        categories vm = List.map name sorted ++ extras
        /\ Permutation sorted (or_fallback (categories_read backend cache) [])
        /\ StronglySorted (fun a b => sortOrder_or_0 a <= sortOrder_or_0 b) sorted
        /\ (forall k,
              List.filter (fun c => sortOrder_or_0 c =? k) sorted
              = List.filter (fun c => sortOrder_or_0 c =? k)
                  (or_fallback (categories_read backend cache) []))
        /\ StronglySorted (fun a b => string_le a b = true) extras
        /\ Permutation extras
             (List.filter
                (fun c => negb (includes
                   (List.map name (or_fallback (categories_read backend cache) [])) c))
                (or_fallback (product_categories_read backend cache) []))
        /\ (NoDup (List.map name (or_fallback (categories_read backend cache) [])) ->
            NoDup (or_fallback (product_categories_read backend cache) []) ->
            NoDup (categories vm))
        /\ (or_fallback (categories_read backend cache) [] = sample_config ->
            or_fallback (product_categories_read backend cache) [] = [lit "A"; lit "C"] ->
            categories vm = [lit "A"; lit "B"; lit "C"]).
Proof using auth_returns.
  eexists _, _. split; [apply Home_run, auth_returns|]. cbn [Home_view categories].
  set (config := or_fallback (categories_read backend cache) []).
  set (observed := or_fallback (product_categories_read backend cache) []).
  assert (HP : Permutation (List.map name (sort_by sortOrder_le config))
                 (List.map name config))
    by apply Permutation_map, sort_by_perm.
  eexists _, _. split; [reflexivity|].
  split; [apply sort_by_perm|].
  split; [apply sort_by_sortOrder_sorted|].
  split; [intros k; apply sort_by_sortOrder_stable|].
  split; [apply sort_strings_sorted|].
  split; [|split].
  - rewrite (extraCategories_perm _ _ _ HP). apply sort_strings_perm.
  - intros Hn Ho. apply merged_categories_NoDup; [|exact Ho]. now rewrite HP.
  - intros -> ->. vm_compute. reflexivity.
Qed.

(** On this cache, which gives back what the producer returned (and so,
    by [Framework_Home_typed] below, on a cache of the framework with fresh
    entries only and none of the ratings read), the handler returns a view
    model when the session read returns, whatever the other reads do; and
    a read that fails leaves its fallback in the view model: no product
    and total 0, no announcement, 0 visitors, an empty category config, no
    category beyond the config names, ratings and review counts of 0, no
    pending order. *)
Lemma Home_returns_with_fallbacks :
  exists vm w,
    run = (Returned vm, w)
    /\ (search_read String_of_Number backend cache resolved = Thrown ->
        products vm = [] /\ total (pagination vm) = 0)
    /\ (announcement_read backend cache = Thrown -> announcement vm = None)
    /\ (visitors_read backend cache = Thrown -> visitorCount vm = 0)
    /\ (categories_read backend cache = Thrown -> categoryConfig_array vm w = [])
    /\ (product_categories_read backend cache = Thrown ->
        categories vm = List.map name (categoryConfig_array vm w))
    /\ (categories_read backend cache = Thrown ->
        product_categories_read backend cache = Thrown -> categories vm = [])
    /\ (ratings_read backend cache (sortedIds found) = Thrown ->
        Forall (fun ep => rating ep = 0%Qc /\ reviewCount ep = 0) (products vm))
    /\ (forall uid, session_user_id session = Some uid ->
          getUserPendingOrders backend uid = Thrown -> pendingOrders vm = []).
Proof using auth_returns.
  eexists _, _. split; [apply Home_run, auth_returns|].
  unfold categoryConfig_array.
  cbn [Home_view products pagination total announcement visitorCount categories
       categoryConfig pendingOrders arrays].
  cbn [lookup list_lookup default].
  split; [|split; [|split; [|split; [|split; [|split; [|split]]]]]].
  - intros Hfail. unfold found_products. rewrite Hfail. split; reflexivity.
  - intros ->. reflexivity.
  - intros ->. reflexivity.
  - intros ->. reflexivity.
  - intros ->. cbn [or_fallback]. unfold extraCategories. cbn. apply app_nil_r.
  - intros -> ->. reflexivity.
  - intros ->. cbn [or_fallback]. apply Forall_forall. intros ep Hep.
    apply list_elem_of_In, in_map_iff in Hep. destruct Hep as (p & <- & _).
    unfold enrich, rating_of. cbn [rating reviewCount].
    destruct (p_id p); rewrite ?lookup_empty; split; reflexivity.
  - intros uid Hid Hfail. unfold pending_read. rewrite Hid, Hfail. reflexivity.
Qed.
End HomeFacts.

(** ** stripMarkdown *)

Lemma stripMarkdown_chars (input : list N) :
  Forall (fun c => is_markup c = false /\ (is_space c = true -> c = 32%N))
    (stripMarkdown input).
Proof.
  unfold stripMarkdown. rewrite replace_spaces, replace_markup.
  set (s := replace_all re_link _ _).
  destruct (trim_infix (squeeze false (List.map (fun c => if is_markup c then 32%N else c) s)))
    as (a & b & Htrim).
  pose proof (squeeze_chars false (List.map (fun c => if is_markup c then 32%N else c) s))
    as Hall.
  set (t := trim _) in *. rewrite Htrim in Hall.
  apply Forall_app in Hall. destruct Hall as [_ Hall].
  apply Forall_app in Hall. destruct Hall as [Hall _].
  eapply Forall_impl; [exact Hall|]. cbn beta.
  intros c [->|[Hc Hs]]; [split; reflexivity|].
  split; [|congruence].
  apply list_elem_of_In, in_map_iff in Hc. destruct Hc as (d & Hd & _).
  destruct (is_markup d) eqn:E; subst c; [reflexivity|exact E].
Qed.

Lemma stripMarkdown_single_spaced (input : list N) :
  single_spaced (stripMarkdown input) = true.
Proof.
  unfold stripMarkdown. rewrite replace_spaces.
  set (s := replace_all re_markup _ _).
  destruct (trim_infix (squeeze false s)) as (a & b & Htrim).
  pose proof (squeeze_single_spaced false s) as H.
  set (t := trim _) in *. rewrite Htrim in H.
  eapply single_spaced_prefix, single_spaced_suffix, H.
Qed.

(** C8. [stripMarkdown] is a function of its input alone: images and
    links are replaced, then each markup character becomes a space, each
    run of white space one space, and the ends are trimmed. Its result has
    none of the markup characters, no white space but single spaces
    between other characters, and none at either end. An image whose alt
    text has no "]" and whose address has no ")" (neither spanning lines)
    is removed when no "!" comes before it, and such a link is replaced by
    its text when the input has no "!" and no "[" comes before the link's
    address. In particular "**Hi** [link](url) ![img](url2)" becomes
    "Hi link". *)
Theorem stripMarkdown_plain_text :
  stripMarkdown (lit "**Hi** [link](url) ![img](url2)") = lit "Hi link"
  /\ (forall input,
        stripMarkdown input
        = trim (squeeze false
                  (List.map (fun c => if is_markup c then 32%N else c)
                     (replace_all re_link [RGroup1]
                        (replace_all re_image [RText []] input))))
        /\ Forall (fun c => is_markup c = false /\ (is_space c = true -> c = 32%N))
             (stripMarkdown input)
        /\ single_spaced (stripMarkdown input) = true
        /\ (forall c, head (stripMarkdown input) = Some c -> is_space c = false)
        /\ (forall c, last (stripMarkdown input) = Some c -> is_space c = false))
  /\ (forall pre alt url post,
        ch "!" ∉ pre ->
        Forall (fun d => dot d = true /\ d <> ch "]") alt ->
        Forall (fun d => dot d = true /\ d <> ch ")") url ->
        stripMarkdown (pre ++ lit "![" ++ alt ++ lit "](" ++ url ++ lit ")" ++ post)
        = stripMarkdown (pre ++ post))
  /\ (forall pre text url post,
        ch "!" ∉ pre ++ text ++ url ++ post ->
        ch "[" ∉ pre ++ text ->
        Forall (fun d => dot d = true /\ d <> ch "]") text ->
        Forall (fun d => dot d = true /\ d <> ch ")") url ->
        stripMarkdown (pre ++ lit "[" ++ text ++ lit "](" ++ url ++ lit ")" ++ post)
        = stripMarkdown (pre ++ text ++ post)).
Proof.
  split; [vm_compute; reflexivity|].
  split; [|split].
  - intros input.
    split; [unfold stripMarkdown; now rewrite replace_spaces, replace_markup|].
    split; [apply stripMarkdown_chars|].
    split; [apply stripMarkdown_single_spaced|].
    split; intros c; unfold stripMarkdown; [apply trim_head|apply trim_last].
  - intros pre alt url post Hpre Halt Hurl. unfold stripMarkdown.
    rewrite (replace_image pre alt url post Hpre Halt Hurl).
    unfold replace_all at 8, re_image.
    rewrite (replace_from_no_start _ _ _ pre post Hpre). reflexivity.
  - intros pre text url post Hbang Hbracket Htext Hurl. unfold stripMarkdown.
    assert (Hlits : (ch "!" ∉ lit "[") /\ (ch "!" ∉ lit "](") /\ (ch "!" ∉ lit ")"))
      by (repeat split; intros H; apply list_elem_of_In in H; cbn in H;
          intuition discriminate).
    repeat setoid_rewrite elem_of_app in Hbang.
    repeat setoid_rewrite elem_of_app in Hbracket.
    unfold re_image.
    rewrite !(replace_all_no_start (ch "!")) by (rewrite !elem_of_app; tauto).
    rewrite (replace_link pre text url post) by tauto.
    rewrite (app_assoc pre text post).
    unfold replace_all at 6, re_link.
    rewrite (replace_from_no_start _ _ _ (pre ++ text) post)
      by (rewrite elem_of_app; tauto).
    now rewrite <- app_assoc.
Qed.

(** ** The theorems at work on sample requests *)

(** Every read but the session read fails. *)
Lemma Home_returns_with_fallbacks_witness :
  let backend := sample_backend (Returned (sample_user "u1")) Thrown Thrown Thrown Thrown in
  auth backend = Returned (sample_user "u1")
  /\ exists vm w,
      Home no_digits backend empty_cache None initial_world = (Returned vm, w)
      /\ products vm = [] /\ categories vm = [] /\ categoryConfig_array vm w = [].
Proof.
  intros backend. split; [reflexivity|].
  destruct (Home_returns_with_fallbacks no_digits backend empty_cache None (sample_user "u1") eq_refl)
    as (vm & w & Hrun & Hsearch & _ & _ & Hconfig & _ & Hcats & _).
  exists vm, w. split; [exact Hrun|].
  split; [apply Hsearch; reflexivity|].
  split; [apply Hcats; reflexivity|apply Hconfig; reflexivity].
Defined.

(** The example of the specification. *)
Lemma Home_categories_merged_witness :
  let backend :=
    sample_backend (Returned None) Thrown (Returned sample_config)
      (Returned [lit "A"; lit "C"]) Thrown in
  auth backend = Returned None
  /\ exists vm w,
      Home no_digits backend empty_cache None initial_world = (Returned vm, w)
      /\ categories vm = [lit "A"; lit "B"; lit "C"].
Proof.
  intros backend. split; [reflexivity|].
  destruct (Home_categories_merged no_digits backend empty_cache None None eq_refl)
    as (vm & w & Hrun & sorted & extras & _ & _ & _ & _ & _ & _ & _ & Hexample).
  exists vm, w. split; [exact Hrun|]. apply Hexample; reflexivity.
Defined.


Lemma Home_search_failure_witness :
  let backend := sample_backend (Returned None) Thrown (Returned []) (Returned []) Thrown in
  let params := sample_params "page" (lit "3") in
  auth backend = Returned None
  /\ search_read no_digits backend empty_cache (resolve params) = Thrown
  /\ exists vm w,
      Home no_digits backend empty_cache params initial_world = (Returned vm, w)
      /\ products vm = []
      /\ total (pagination vm) = 0
      /\ page (pagination vm) = Int 3
      /\ pageSize (pagination vm) = 24.
Proof.
  intros backend params. split; [reflexivity|]. split; [reflexivity|].
  exact (Home_search_failure no_digits backend empty_cache params None eq_refl eq_refl).
Defined.

Lemma Home_page_at_least_1_witness :
  let backend := sample_backend (Returned None) Thrown (Returned []) (Returned []) Thrown in
  let params := sample_params "page" (lit "-4") in
  auth backend = Returned None
  /\ exists vm w,
      Home no_digits backend empty_cache params initial_world = (Returned vm, w)
      /\ page (pagination vm) = Int 1.
Proof.
  intros backend params. split; [reflexivity|].
  destruct (Home_page_at_least_1 no_digits backend empty_cache params None eq_refl)
    as (vm & w & Hrun & _ & _ & Hpage & _).
  exists vm, w. split; [exact Hrun|exact Hpage].
Defined.

Lemma Home_category_filter_witness :
  let backend := sample_backend (Returned None) Thrown (Returned []) (Returned []) Thrown in
  let params := sample_params "category" (lit "  games ") in
  auth backend = Returned None
  /\ exists vm w,
      Home no_digits backend empty_cache params initial_world = (Returned vm, w)
      /\ f_category (filters vm) = Some (lit "games").
Proof.
  intros backend params. split; [reflexivity|].
  exact (Home_category_filter no_digits backend empty_cache params None eq_refl).
Defined.

(** A session without a user. *)
Lemma Home_pending_orders_skipped_witness :
  let session := Some {| user := None |} in
  let backend := sample_backend (Returned session) Thrown (Returned []) (Returned []) Thrown in
  auth backend = Returned session
  /\ exists vm w,
      Home no_digits backend empty_cache None initial_world = (Returned vm, w)
      /\ pendingOrders vm = []
      /\ forall uid, Call_getUserPendingOrders uid ∉ calls w.
Proof.
  intros session backend. split; [reflexivity|].
  exact (Home_pending_orders_skipped no_digits backend empty_cache None session eq_refl I).
Defined.

Lemma Home_ratings_ids_sorted_witness :
  let backend :=
    sample_backend (Returned None)
      (Returned (sample_search [sample_product "p2"; sample_product "p1"]))
      (Returned []) (Returned []) Thrown in
  auth backend = Returned None
  /\ exists vm w,
      Home no_digits backend empty_cache None initial_world = (Returned vm, w)
      /\ Call_getProductRatings [lit "p1"; lit "p2"] ∈ calls w.
Proof.
  intros backend. split; [reflexivity|].
  destruct (Home_ratings_ids_sorted no_digits backend empty_cache None None eq_refl)
    as (vm & w & Hrun & _ & _ & Hcall & _).
  exists vm, w. split; [exact Hrun|]. apply Hcall. reflexivity.
Defined.

Lemma Home_categoryConfig_sorted_witness :
  let backend :=
    sample_backend (Returned None) Thrown (Returned sample_config) (Returned []) Thrown in
  auth backend = Returned None
  /\ exists vm w,
      Home no_digits backend empty_cache None initial_world = (Returned vm, w)
      /\ categoryConfig_array vm w
         = [ {| name := lit "A"; sortOrder := Some 1 |};
             {| name := lit "B"; sortOrder := Some 2 |} ].
Proof.
  intros backend. split; [reflexivity|].
  destruct (Home_categoryConfig_sorted no_digits backend empty_cache None None eq_refl)
    as (vm & w & Hrun & Harray & _).
  exists vm, w. split; [exact Hrun|exact Harray].
Defined.

Lemma stripMarkdown_plain_text_witness :
  (ch "!" ∉ lit "see ")
  /\ stripMarkdown (lit "see " ++ lit "![" ++ lit "logo" ++ lit "](" ++ lit "a.png"
                    ++ lit ")" ++ lit " here")
     = stripMarkdown (lit "see " ++ lit " here").
Proof.
  assert (Hpre : ch "!" ∉ lit "see ").
  { intros H. apply list_elem_of_In in H. cbn in H. intuition discriminate. }
  split; [exact Hpre|].
  destruct stripMarkdown_plain_text as (_ & _ & Himage & _).
  apply Himage; [exact Hpre| |]; repeat constructor; discriminate.
Defined.

(** ** Where the specification says more than the code does *)

(** C5, as stated: a page of 1 followed by 309 zeros is not an integer. *)
Lemma Home_page_not_an_integer :
  let backend := sample_backend (Returned None) Thrown (Returned []) (Returned []) Thrown in
  let params := sample_params "page" (49%N :: repeat 48%N 309) in
  exists vm w,
    Home no_digits backend empty_cache params initial_world = (Returned vm, w)
    /\ page (pagination vm) = PosInf
    /\ ~ exists n : Z, page (pagination vm) = Int n /\ 1 <= n.
Proof.
  intros backend params. eexists _, _.
  split; [apply Home_run; reflexivity|].
  assert (Hpage : param_page (resolve params) = PosInf) by (vm_compute; reflexivity).
  cbn [Home_view pagination page]. split; [exact Hpage|].
  rewrite Hpage. intros (n & Hn & _). discriminate.
Qed.

(** C2, as stated: a product category that the read returns twice is
    twice among the merged categories. *)
Lemma Home_categories_duplicates :
  let backend :=
    sample_backend (Returned None) Thrown (Returned [])
      (Returned [lit "C"; lit "C"]) Thrown in
  exists vm w,
    Home no_digits backend empty_cache None initial_world = (Returned vm, w)
    /\ categories vm = [lit "C"; lit "C"]
    /\ ~ NoDup (categories vm).
Proof.
  intros backend. eexists _, _.
  split; [apply Home_run; reflexivity|].
  assert (Hcats : categories (Home_view no_digits backend empty_cache (resolve None) None)
                  = [lit "C"; lit "C"]) by (vm_compute; reflexivity).
  split; [exact Hcats|]. rewrite Hcats. intros Hnd.
  apply NoDup_cons in Hnd. destruct Hnd as [Hnotin _]. apply Hnotin. now left.
Qed.

(** C9, as stated: two found products with one id give the id twice. *)
Lemma Home_ratings_ids_duplicates :
  let backend :=
    sample_backend (Returned None)
      (Returned (sample_search [sample_product "a"; sample_product "a"]))
      (Returned []) (Returned []) Thrown in
  exists vm w,
    Home no_digits backend empty_cache None initial_world = (Returned vm, w)
    /\ Call_getProductRatings [lit "a"; lit "a"] ∈ calls w
    /\ ~ NoDup [lit "a"; lit "a"].
Proof.
  intros backend. eexists _, _.
  split; [apply Home_run; reflexivity|]. cbn [calls]. split.
  - unfold Home_calls. rewrite !elem_of_app. right. left.
    apply list_elem_of_singleton. reflexivity.
  - intros Hnd. apply NoDup_cons in Hnd. destruct Hnd as [Hnotin _].
    apply Hnotin. now left.
Qed.

(** * Further properties *)

(** ** What a match consumes and captures *)

Lemma match_here_Plus_cons (p : N -> bool) (items : list item) (d : N) (s : list N) :
  match_here (Plus p :: items) (d :: s) =
    if p d
    then match match_here (Plus p :: items) s with
         | Some (n, g) => Some (S n, g)
         | None =>
             match match_here items s with
             | Some (n, g) => Some (S n, g)
             | None => None
             end
         end
    else None.
Proof. reflexivity. Qed.

(** A match consumes no more than there is, captures no more than it
    consumes, and captures characters of the subject only. *)
Lemma match_here_bounds (items : list item) :
  forall (s : list N) (n : nat) (g : list N),
    match_here items s = Some (n, g) ->
    (n <= length s)%nat /\ (length g <= n)%nat /\ (forall c, c ∈ g -> c ∈ s).
Proof.
  induction items as [|[c|captured|p|p] items IH]; intros s n g H.
  - injection H as <- <-. cbn [length]. split; [lia|split; [lia|]].
    intros c Hc. now apply elem_of_nil in Hc.
  - destruct s as [|d s]; [discriminate|]. cbn [match_here] in H.
    destruct (c =? d)%N; [|discriminate].
    destruct (match_here items s) as [[n' g']|] eqn:E; [|discriminate].
    injection H as <- <-. destruct (IH _ _ _ E) as (H1 & H2 & H3).
    cbn [length]. split; [lia|split; [lia|]]. intros x Hx. right. auto.
  - revert n g H. induction s as [|d s IHs]; intros n g H;
      rewrite match_here_LazyDots in H.
    + destruct (match_here items []) as [[n' g']|] eqn:E; [|discriminate].
      injection H as <- <-. destruct (IH _ _ _ E) as (H1 & H2 & H3).
      destruct captured; (split; [exact H1|split]); auto; cbn [length]; try lia;
        try (intros x Hx; now apply elem_of_nil in Hx).
    + destruct (match_here items (d :: s)) as [[n' g']|] eqn:E.
      * injection H as <- <-. destruct (IH _ _ _ E) as (H1 & H2 & H3).
        destruct captured; (split; [exact H1|split]); auto; cbn [length]; try lia;
          try (intros x Hx; now apply elem_of_nil in Hx).
      * destruct (dot d); [|discriminate].
        destruct (match_here (LazyDots captured :: items) s) as [[n' g']|] eqn:E';
          [|discriminate].
        injection H as <- <-. destruct (IHs _ _ eq_refl) as (H1 & H2 & H3).
        cbn [length]. destruct captured; cbn [length]; (split; [lia|split; [lia|]]).
        -- intros x Hx. apply elem_of_cons in Hx. destruct Hx as [->|Hx]; [now left|].
           right. auto.
        -- intros x Hx. right. auto.
  - destruct s as [|d s]; [discriminate|]. cbn [match_here] in H.
    destruct (p d); [|discriminate].
    destruct (match_here items s) as [[n' g']|] eqn:E; [|discriminate].
    injection H as <- <-. destruct (IH _ _ _ E) as (H1 & H2 & H3).
    cbn [length]. split; [lia|split; [lia|]]. intros x Hx. right. auto.
  - revert n g H. induction s as [|d s IHs]; intros n g H; [discriminate|].
    rewrite match_here_Plus_cons in H. destruct (p d); [|discriminate].
    destruct (match_here (Plus p :: items) s) as [[n' g']|] eqn:E'.
    + injection H as <- <-. destruct (IHs _ _ eq_refl) as (H1 & H2 & H3).
      cbn [length]. split; [lia|split; [lia|]]. intros x Hx. right. auto.
    + destruct (match_here items s) as [[n' g']|] eqn:E; [|discriminate].
      injection H as <- <-. destruct (IH _ _ _ E) as (H1 & H2 & H3).
      cbn [length]. split; [lia|split; [lia|]]. intros x Hx. right. auto.
Qed.

(** A match needs every literal of the pattern in the subject. *)
Lemma match_here_literals (items : list item) :
  forall (s : list N) (n : nat) (g : list N) (c : N),
    match_here items s = Some (n, g) -> In (Lit c) items -> c ∈ s.
Proof.
  induction items as [|[c'|captured|p|p] items IH]; intros s n g c H Hin.
  - destruct Hin.
  - destruct s as [|d s]; [discriminate|]. cbn [match_here] in H.
    destruct (N.eqb_spec c' d) as [->|]; [|discriminate].
    destruct (match_here items s) as [[n' g']|] eqn:E; [|discriminate].
    destruct Hin as [[= ->]|Hin]; [now left|]. right. eauto.
  - destruct Hin as [Hin|Hin]; [discriminate|].
    revert n g H. induction s as [|d s IHs]; intros n g H;
      rewrite match_here_LazyDots in H.
    + destruct (match_here items []) as [[n' g']|] eqn:E; [|discriminate]. eauto.
    + destruct (match_here items (d :: s)) as [[n' g']|] eqn:E; [eauto|].
      destruct (dot d); [|discriminate].
      destruct (match_here (LazyDots captured :: items) s) as [[n' g']|] eqn:E';
        [|discriminate].
      right. eapply IHs. reflexivity.
  - destruct Hin as [Hin|Hin]; [discriminate|].
    destruct s as [|d s]; [discriminate|]. cbn [match_here] in H.
    destruct (p d); [|discriminate].
    destruct (match_here items s) as [[n' g']|] eqn:E; [|discriminate].
    right. eauto.
  - destruct Hin as [Hin|Hin]; [discriminate|].
    revert n g H. induction s as [|d s IHs]; intros n g H; [discriminate|].
    rewrite match_here_Plus_cons in H. destruct (p d); [|discriminate].
    destruct (match_here (Plus p :: items) s) as [[n' g']|] eqn:E'.
    + right. eapply IHs. reflexivity.
    + destruct (match_here items s) as [[n' g']|] eqn:E; [|discriminate].
      right. eauto.
Qed.

(** Where a literal of the pattern is missing, nothing is replaced. *)
Lemma replace_all_absent_literal (c : N) (items : list item) (repl : list rpart)
    (s : list N) :
  In (Lit c) items -> c ∉ s -> replace_all items repl s = s.
Proof.
  intros Hin. unfold replace_all. induction s as [|d s IH]; intros Hc.
  - cbn [replace_from]. destruct (match_here items []) as [[n g]|] eqn:E; [|reflexivity].
    exfalso. apply Hc. eapply match_here_literals; eauto.
  - cbn [replace_from]. destruct (match_here items (d :: s)) as [[n g]|] eqn:E.
    + exfalso. apply Hc. eapply match_here_literals; eauto.
    + rewrite IH; [reflexivity|]. intros H. apply Hc. now right.
Qed.

(** A replacement that is no longer than what it replaces does not
    lengthen the subject. *)
Lemma replace_from_length (items : list item) (repl : list rpart) :
  (forall g, (length (expand repl g) <= length g)%nat) ->
  forall (s : list N) (k : nat),
    (k <= length s)%nat ->
    (length (replace_from items repl k s) + k <= length s)%nat.
Proof.
  intros Hrepl. induction s as [|c s IH]; intros k Hk.
  - cbn [replace_from]. destruct (match_here items []) as [[n g]|] eqn:E;
      [|cbn [length] in *; lia].
    destruct (match_here_bounds _ _ _ _ E) as (H1 & H2 & _).
    specialize (Hrepl g). cbn [length] in *. lia.
  - cbn [replace_from]. destruct k as [|k].
    + destruct (match_here items (c :: s)) as [[[|n] g]|] eqn:E.
      * destruct (match_here_bounds _ _ _ _ E) as (H1 & H2 & _).
        specialize (Hrepl g). specialize (IH 0%nat ltac:(lia)).
        rewrite length_app. cbn [length] in *. lia.
      * destruct (match_here_bounds _ _ _ _ E) as (H1 & H2 & _).
        specialize (Hrepl g). cbn [length] in H1. specialize (IH n ltac:(lia)).
        rewrite length_app. cbn [length]. lia.
      * specialize (IH 0%nat ltac:(lia)). cbn [length]. lia.
    + cbn [length] in *. specialize (IH k ltac:(lia)). lia.
Qed.

(** What a replacement leaves is characters of the subject or of the
    literal text of the replacement. *)
Lemma replace_from_chars (items : list item) (repl : list rpart) (P : N -> Prop) :
  (forall g x, x ∈ expand repl g -> x ∈ g \/ P x) ->
  forall (s : list N) (k : nat) (x : N),
    x ∈ replace_from items repl k s -> x ∈ s \/ P x.
Proof.
  intros Hrepl. induction s as [|c s IH]; intros k x Hx.
  - cbn [replace_from] in Hx. destruct (match_here items []) as [[n g]|] eqn:E.
    + destruct (match_here_bounds _ _ _ _ E) as (_ & _ & H3).
      destruct (Hrepl _ _ Hx) as [H|H]; auto.
    + now apply elem_of_nil in Hx.
  - cbn [replace_from] in Hx. destruct k as [|k].
    + destruct (match_here items (c :: s)) as [[[|n] g]|] eqn:E.
      * destruct (match_here_bounds _ _ _ _ E) as (_ & _ & H3).
        apply elem_of_app in Hx. destruct Hx as [Hx|Hx].
        -- destruct (Hrepl _ _ Hx) as [H|H]; auto.
        -- apply elem_of_cons in Hx. destruct Hx as [->|Hx]; [left; now left|].
           destruct (IH _ _ Hx) as [H|H]; auto. left. now right.
      * destruct (match_here_bounds _ _ _ _ E) as (_ & _ & H3).
        apply elem_of_app in Hx. destruct Hx as [Hx|Hx].
        -- destruct (Hrepl _ _ Hx) as [H|H]; auto.
        -- destruct (IH _ _ Hx) as [H|H]; auto. left. now right.
      * apply elem_of_cons in Hx. destruct Hx as [->|Hx]; [left; now left|].
        destruct (IH _ _ Hx) as [H|H]; auto. left. now right.
    + destruct (IH _ _ Hx) as [H|H]; auto. left. now right.
Qed.

(** ** stripMarkdown, further *)

Lemma squeeze_length (b : bool) (s : list N) : (length (squeeze b s) <= length s)%nat.
Proof.
  revert b; induction s as [|c s IH]; intros b; cbn [squeeze length]; [lia|].
  pose proof (IH true). pose proof (IH false).
  destruct (is_space c); [destruct b|]; cbn [length]; lia.
Qed.

Lemma trim_length (s : list N) : (length (trim s) <= length s)%nat.
Proof.
  destruct (trim_infix s) as (a & b & H). rewrite H at 2.
  rewrite !length_app. lia.
Qed.

(** X1. The plain text is never longer than the markdown. *)
Theorem stripMarkdown_not_longer (input : list N) :
  (length (stripMarkdown input) <= length input)%nat.
Proof.
  unfold stripMarkdown. rewrite replace_spaces, replace_markup.
  etransitivity; [apply trim_length|].
  etransitivity; [apply squeeze_length|].
  rewrite length_map. unfold replace_all.
  pose proof (replace_from_length re_link [RGroup1]
                (fun g => ltac:(cbn; rewrite app_nil_r; lia))
                (replace_from re_image [RText []] 0 input) 0%nat ltac:(lia)) as H2.
  pose proof (replace_from_length re_image [RText []]
                (fun g => ltac:(cbn; lia)) input 0%nat ltac:(lia)) as H1.
  lia.
Qed.

(** X2. The plain text has no character that the markdown does not have,
    but for the space. *)
Theorem stripMarkdown_no_new_character (input : list N) :
  Forall (fun c => c = 32%N \/ c ∈ input) (stripMarkdown input).
Proof.
  unfold stripMarkdown. rewrite replace_spaces, replace_markup.
  set (s1 := replace_all re_image _ input).
  set (s2 := replace_all re_link _ s1).
  set (s3 := List.map _ s2).
  assert (H1 : forall x, x ∈ s1 -> x ∈ input).
  { intros x Hx. unfold s1, replace_all in Hx.
    apply (replace_from_chars _ _ (fun _ => False)) in Hx; [tauto|].
    intros g y Hy. cbn in Hy. now apply elem_of_nil in Hy. }
  assert (H2 : forall x, x ∈ s2 -> x ∈ input).
  { intros x Hx. unfold s2, replace_all in Hx.
    apply (replace_from_chars _ _ (fun _ => False)) in Hx; [destruct Hx; [auto|tauto]|].
    intros g y Hy. cbn in Hy. rewrite app_nil_r in Hy. now left. }
  assert (H3 : forall x, x ∈ s3 -> x = 32%N \/ x ∈ input).
  { intros x Hx. apply list_elem_of_In, in_map_iff in Hx.
    destruct Hx as (y & <- & Hy). apply list_elem_of_In in Hy.
    destruct (is_markup y); auto. }
  destruct (trim_infix (squeeze false s3)) as (a & b & Htrim).
  pose proof (squeeze_chars false s3) as Hall.
  set (t := trim _) in *. rewrite Htrim in Hall.
  apply Forall_app in Hall. destruct Hall as [_ Hall].
  apply Forall_app in Hall. destruct Hall as [Hall _].
  eapply Forall_impl; [exact Hall|]. cbn beta.
  intros c [->|[Hc _]]; auto.
Qed.

Lemma squeeze_plain (s : list N) :
  Forall (fun c => is_space c = true -> c = 32%N) s ->
  single_spaced s = true ->
  forall b, (b = true -> forall c, head s = Some c -> is_space c = false) ->
  squeeze b s = s.
Proof.
  induction 1 as [|c s Hc Hs IH]; intros Hsingle b Hb; [reflexivity|].
  cbn [squeeze].
  assert (Hrest : single_spaced s = true).
  { cbn [single_spaced] in Hsingle. destruct s; [reflexivity|].
    apply andb_true_iff in Hsingle. apply Hsingle. }
  destruct (is_space c) eqn:E.
  - destruct b.
    + rewrite (Hb eq_refl c eq_refl) in E. discriminate.
    + rewrite (Hc eq_refl) at 1. f_equal. apply IH; [exact Hrest|].
      intros _ d Hd. destruct s as [|d' s]; [discriminate|].
      injection Hd as ->. cbn [single_spaced] in Hsingle.
      apply andb_true_iff in Hsingle. destruct Hsingle as [Hcd _].
      rewrite E in Hcd. cbn in Hcd. now apply negb_true_iff in Hcd.
  - f_equal. apply IH; [exact Hrest|]. discriminate.
Qed.

Lemma trimStart_plain (s : list N) :
  (forall c, head s = Some c -> is_space c = false) -> trimStart s = s.
Proof.
  destruct s as [|c s]; [reflexivity|]. intros H. cbn [trimStart].
  now rewrite (H c eq_refl).
Qed.

Lemma head_rev (s : list N) : head (rev s) = last s.
Proof.
  induction s as [|c s IH] using rev_ind; [reflexivity|].
  rewrite rev_app_distr, last_snoc. reflexivity.
Qed.

Lemma trim_plain (s : list N) :
  (forall c, head s = Some c -> is_space c = false) ->
  (forall c, last s = Some c -> is_space c = false) ->
  trim s = s.
Proof.
  intros Hhead Hlast. unfold trim, trimEnd.
  rewrite (trimStart_plain s Hhead).
  rewrite trimStart_plain; [apply rev_involutive|].
  intros c. rewrite head_rev. apply Hlast.
Qed.

Lemma stripMarkdown_plain (s : list N) :
  ch "[" ∉ s ->
  Forall (fun c => is_markup c = false /\ (is_space c = true -> c = 32%N)) s ->
  single_spaced s = true ->
  (forall c, head s = Some c -> is_space c = false) ->
  (forall c, last s = Some c -> is_space c = false) ->
  stripMarkdown s = s.
Proof.
  intros Hbracket Hchars Hsingle Hhead Hlast. unfold stripMarkdown.
  rewrite (replace_all_absent_literal (ch "[") re_image) by (cbn; tauto || exact Hbracket).
  rewrite (replace_all_absent_literal (ch "[") re_link) by (cbn; tauto || exact Hbracket).
  rewrite replace_spaces, replace_markup.
  assert (Hmap : List.map (fun c => if is_markup c then 32%N else c) s = s).
  { clear -Hchars. induction Hchars as [|c s [Hc _] _ IH]; [reflexivity|].
    cbn [List.map]. now rewrite Hc, IH. }
  rewrite Hmap, squeeze_plain; [now apply trim_plain| |exact Hsingle|discriminate].
  eapply Forall_impl; [exact Hchars|]. cbn beta. tauto.
Qed.

(** X3. Text without "[" and markup characters, with single spaces only
    and none at the ends, is its own plain text; so stripping again changes
    nothing when the first result has no "[". *)
Theorem stripMarkdown_fixed_points :
  (forall s,
     ch "[" ∉ s ->
     Forall (fun c => is_markup c = false /\ (is_space c = true -> c = 32%N)) s ->
     single_spaced s = true ->
     (forall c, head s = Some c -> is_space c = false) ->
     (forall c, last s = Some c -> is_space c = false) ->
     stripMarkdown s = s)
  /\ (forall input,
        ch "[" ∉ stripMarkdown input ->
        stripMarkdown (stripMarkdown input) = stripMarkdown input).
Proof.
  split.
  - apply stripMarkdown_plain.
  - intros input Hbracket. apply stripMarkdown_plain.
    + exact Hbracket.
    + apply stripMarkdown_chars.
    + apply stripMarkdown_single_spaced.
    + intros c. unfold stripMarkdown. apply trim_head.
    + intros c. unfold stripMarkdown. apply trim_last.
Qed.

(** ** parseInt on decimal numerals *)

Lemma is_digit_not_space (c : N) : is_digit c = true -> is_space c = false.
Proof.
  unfold is_digit. rewrite andb_true_iff, !N.leb_le. intros [H1 H2].
  unfold is_space, is_white_space, is_line_terminator.
  repeat match goal with
         | |- context [(c =? ?k)%N] => destruct (N.eqb_spec c k); [lia|]
         | |- context [(?k <=? c)%N] => destruct (N.leb_spec k c); [lia|]
         end.
  reflexivity.
Qed.

Lemma trimStart_app_spaces (ws t : list N) :
  Forall (fun c => is_space c = true) ws -> trimStart (ws ++ t) = trimStart t.
Proof.
  induction 1 as [|c ws Hc _ IH]; [reflexivity|]. cbn [app trimStart]. now rewrite Hc.
Qed.

Lemma digits_prefix_app (ds rest : list N) :
  Forall (fun c => is_digit c = true) ds ->
  match rest with c :: _ => is_digit c = false | [] => True end ->
  digits_prefix (ds ++ rest) = ds.
Proof.
  intros Hds Hrest. induction Hds as [|c ds Hc _ IH].
  - destruct rest as [|c rest]; [reflexivity|]. cbn [app digits_prefix]. now rewrite Hrest.
  - cbn [app digits_prefix]. now rewrite Hc, IH.
Qed.

(** [parseInt] skips leading white space and stops at the first character
    that is not a digit. *)
Lemma parseInt10_numeral (ws ds rest : list N) :
  Forall (fun c => is_space c = true) ws ->
  ds <> [] ->
  Forall (fun c => is_digit c = true) ds ->
  match rest with c :: _ => is_digit c = false | [] => True end ->
  parseInt10 (ws ++ ds ++ rest) = double_of_nat (digits_value ds).
Proof.
  intros Hws Hne Hds Hrest. unfold parseInt10.
  rewrite trimStart_app_spaces by exact Hws.
  destruct ds as [|d ds]; [contradiction|].
  pose proof (Forall_inv Hds) as Hd. cbn beta in Hd.
  cbn [app trimStart]. rewrite (is_digit_not_space d Hd).
  assert (Hsign : parse_sign (d :: ds ++ rest) = (false, d :: ds ++ rest)).
  { unfold parse_sign. unfold is_digit in Hd. apply andb_true_iff in Hd.
    rewrite !N.leb_le in Hd.
    destruct (N.eqb_spec d 45); [lia|]. destruct (N.eqb_spec d 43); [lia|]. reflexivity. }
  rewrite Hsign.
  change (d :: ds ++ rest) with ((d :: ds) ++ rest).
  rewrite (digits_prefix_app (d :: ds) rest Hds Hrest). reflexivity.
Qed.

(** ** The handler, further *)

Lemma sort_by_sorted_id {A : Type} (le : A -> A -> bool) (l : list A) :
  StronglySorted (fun a b => le a b = true) l -> sort_by le l = l.
Proof.
  induction 1 as [|x l Hs IH Hx]; [reflexivity|].
  cbn [sort_by foldr]. fold (sort_by le l). rewrite IH.
  destruct l as [|y l]; [reflexivity|]. cbn [insert_sorted].
  now rewrite (Forall_inv Hx).
Qed.

Lemma param_category_not_all (resolved : gmap string ParamValue) :
  param_category resolved <> lit "all".
Proof.
  unfold param_category. destruct (param_categoryParam resolved) as [|c t]; [discriminate|].
  case_bool_decide as H; [exact H|discriminate].
Qed.

Lemma param_category_trimmed (resolved : gmap string ParamValue) :
  param_category resolved = []
  \/ param_category resolved = param_categoryParam resolved.
Proof.
  unfold param_category. destruct (param_categoryParam resolved) as [|c t]; [now left|].
  case_bool_decide; [now right|now left].
Qed.

Section HomeMore.
Context {Announcement Order : Type}.
Variable String_of_Number : Number -> jsstring.
Variable backend : @Backend Announcement Order.
Variable cache : @Cache Announcement.
Variable searchParams : option (gmap string ParamValue).

Local Abbreviation resolved := (resolve searchParams).
Local Abbreviation run :=
  (Home String_of_Number backend cache searchParams initial_world).
Local Abbreviation found := (found_products String_of_Number backend cache resolved).

Variable session : option Session.
Hypothesis auth_returns : auth backend = Returned session.

(** X5. A request invokes no backend function twice, and the session read
    is the first that it invokes. *)
Theorem Home_calls_once :
  exists vm w,
    run = (Returned vm, w)
    /\ NoDup (calls w)
    /\ last (calls w) = Some Call_auth.
Proof using auth_returns.
  eexists _, _. split; [apply Home_run, auth_returns|]. cbn [calls].
  unfold Home_calls, miss_calls.
  repeat match goal with
         | |- context [match ?x with Some _ => _ | None => _ end] => destruct x
         end;
    cbn [app]; (split; [|reflexivity]);
    repeat (apply NoDup_cons; split;
            [rewrite ?elem_of_cons, elem_of_nil; intuition discriminate|]);
    apply NoDup_nil; exact I.
Qed.

(** X7. The products of the view model are the found products, one for
    one and in the order of the search (the sorting of the ids is for the
    ratings read only), each with its stock count (stock plus what is
    locked, if anything), its sold count (0 when missing) and the plain
    text of its description (empty when missing). *)
Theorem Home_products_in_search_order :
  exists vm w,
    run = (Returned vm, w)
    /\ List.map base (products vm) = found
    /\ length (products vm) = length found
    /\ Forall (fun ep =>
                 stockCount ep = stock (base ep) + default 0 (locked (base ep))
                 /\ soldCount ep = default 0 (sold (base ep))
                 /\ descriptionPlain ep
                    = stripMarkdown (default [] (description (base ep))))
              (products vm).
Proof using auth_returns.
  eexists _, _. split; [apply Home_run, auth_returns|]. cbn [Home_view products].
  split; [apply map_base_enrich|]. split; [apply length_map|].
  apply Forall_forall. intros ep Hep.
  apply list_elem_of_In, in_map_iff in Hep. destruct Hep as (p & <- & _).
  unfold enrich. cbn [stockCount soldCount descriptionPlain base].
  split; [|split].
  - destruct (locked p) as [[| |]|]; reflexivity.
  - destruct (sold p) as [[| |]|]; reflexivity.
  - destruct (description p) as [[|]|]; reflexivity.
Qed.

(** X8. The filters echo the request, trimmed: [q] and [sort] are the raw
    strings trimmed ("" and "default" when missing or not a single
    string; a [sort] of white space only gives "", not "default"), and
    none of [q], [sort] and [category] starts or ends with white space; a
    category is never empty and never "all". *)
Theorem Home_filters_trimmed :
  exists vm w,
    run = (Returned vm, w)
    /\ f_q (filters vm) = trim (string_or (resolved !! "q"%string) [])
    /\ f_sort (filters vm) = trim (string_or (resolved !! "sort"%string) (lit "default"))
    /\ (forall s, resolved !! "sort"%string = Some (PString s) ->
                  Forall (fun c => is_space c = true) s -> f_sort (filters vm) = [])
    /\ (forall t c,
          t = f_q (filters vm) \/ t = f_sort (filters vm)
          \/ f_category (filters vm) = Some t ->
          head t = Some c \/ last t = Some c -> is_space c = false)
    /\ (forall t, f_category (filters vm) = Some t -> t <> [] /\ t <> lit "all").
Proof using auth_returns.
  eexists _, _. split; [apply Home_run, auth_returns|].
  cbn [Home_view filters f_q f_sort f_category].
  split; [reflexivity|]. split; [reflexivity|]. split; [|split].
  - intros s Hs Hall. unfold param_sort. rewrite Hs. cbn [string_or].
    unfold trim. rewrite <- (app_nil_r s), trimStart_app_spaces by exact Hall.
    reflexivity.
  - assert (Htrim : forall s t c, t = trim s ->
              head t = Some c \/ last t = Some c -> is_space c = false).
    { intros s t c -> [H|H]; [eapply trim_head|eapply trim_last]; exact H. }
    intros t c [->|[->|Hcat]]; [eapply Htrim; reflexivity..|].
    destruct (param_category_trimmed resolved) as [E|E]; rewrite E in Hcat.
    + discriminate.
    + unfold truthy_string in Hcat. unfold param_categoryParam in Hcat.
      destruct (trim _) as [|d u] eqn:Et; [discriminate|]. injection Hcat as <-.
      eapply Htrim. symmetry. exact Et.
  - intros t Hcat. pose proof (param_category_not_all resolved) as Hall.
    unfold truthy_string in Hcat.
    destruct (param_category resolved) as [|d u]; [discriminate|].
    injection Hcat as <-. split; [discriminate|exact Hall].
Qed.
End HomeMore.

Section HomeMore2.
Context {Announcement Order : Type}.
Variable String_of_Number : Number -> jsstring.
Variable backend : @Backend Announcement Order.
Variable cache : @Cache Announcement.
Variable searchParams : option (gmap string ParamValue).
Variable session : option Session.
Hypothesis auth_returns : auth backend = Returned session.

Local Abbreviation resolved := (resolve searchParams).
Local Abbreviation run :=
  (Home String_of_Number backend cache searchParams initial_world).
Local Abbreviation found := (found_products String_of_Number backend cache resolved).
Local Abbreviation config := (or_fallback (categories_read backend cache) []).
Local Abbreviation observed := (or_fallback (product_categories_read backend cache) []).

(** X9. A [page] parameter that is a decimal numeral below 2^53, after
    white space and before any other text, is the page; 0 gives 1. *)
Theorem Home_page_numeral (ws ds rest : list N) :
  resolved !! "page"%string = Some (PString (ws ++ ds ++ rest)) ->
  Forall (fun c => is_space c = true) ws ->
  ds <> [] ->
  Forall (fun c => is_digit c = true) ds ->
  match rest with c :: _ => is_digit c = false | [] => True end ->
  digits_value ds < 2 ^ 53 ->
  exists vm w,
    run = (Returned vm, w)
    /\ page (pagination vm) = Int (Z.max 1 (digits_value ds)).
Proof using auth_returns.
  intros Hpage Hws Hne Hds Hrest Hsmall.
  eexists _, _. split; [apply Home_run, auth_returns|].
  cbn [Home_view pagination page]. unfold param_page. rewrite Hpage. cbn [string_or].
  rewrite parseInt10_numeral by assumption.
  rewrite double_of_nat_exact by exact Hsmall. apply page_normalised.
Qed.

(** X10. The merged categories are the config names and the product
    categories, all of them and nothing else. *)
Theorem Home_categories_complete :
  exists vm w,
    run = (Returned vm, w)
    /\ forall c, c ∈ categories vm <-> c ∈ List.map name config \/ c ∈ observed.
Proof using auth_returns.
  eexists _, _. split; [apply Home_run, auth_returns|]. cbn [Home_view categories].
  intros c.
  assert (HP : Permutation (List.map name (sort_by sortOrder_le config))
                 (List.map name config))
    by apply Permutation_map, sort_by_perm.
  rewrite elem_of_app, (extraCategories_perm _ _ _ HP). unfold extraCategories.
  rewrite sort_strings_perm, HP. unfold includes. split.
  - intros [H|H]; [now left|]. apply list_elem_of_In, filter_In in H.
    right. apply list_elem_of_In, H.
  - intros [H|H]; [now left|].
    destruct (decide (c ∈ List.map name config)) as [Hin|Hnot]; [now left|right].
    apply list_elem_of_In, filter_In. split; [apply list_elem_of_In, H|].
    now rewrite bool_decide_eq_false_2.
Qed.



(** X13. A category config that the read returns in ascending [sortOrder]
    reaches the view model as it is. *)
Theorem Home_sorted_config_unchanged :
  StronglySorted (fun a b => sortOrder_or_0 a <= sortOrder_or_0 b) config ->
  exists vm w,
    run = (Returned vm, w)
    /\ categoryConfig_array vm w = config
    /\ take (length config) (categories vm) = List.map name config.
Proof using auth_returns.
  intros Hsorted.
  assert (Hid : sort_by sortOrder_le config = config).
  { apply sort_by_sorted_id. eapply StronglySorted_weaken; [|exact Hsorted].
    intros a b. apply sortOrder_le_spec. }
  eexists _, _. split; [apply Home_run, auth_returns|].
  unfold categoryConfig_array. cbn [Home_view categoryConfig arrays categories].
  cbn [lookup list_lookup default]. rewrite Hid. split; [reflexivity|].
  rewrite <- (length_map name) at 1. apply take_app_length.
Qed.

(** X14. The ratings read is made even when there is no product to rate:
    when the search fails (or finds nothing) and the cache has no entry
    under the bare key, [getProductRatings] is invoked with the empty
    list. *)
Theorem Home_ratings_read_without_products :
  found = [] ->
  cached_ratings cache [lit "product-ratings"] = None ->
  exists vm w,
    run = (Returned vm, w)
    /\ products vm = []
    /\ Call_getProductRatings [] ∈ calls w.
Proof using auth_returns.
  intros Hfound Hmiss. eexists _, _. split; [apply Home_run, auth_returns|].
  cbn [Home_view products calls]. rewrite Hfound. split; [reflexivity|].
  unfold Home_calls. rewrite Hfound. change (sortedIds []) with (@nil (list N)).
  unfold miss_calls at 1. rewrite Hmiss. rewrite !elem_of_app. right. left. now left.
Qed.

End HomeMore2.

(** X16. The announcement, the visitor count, the categories and the
    pending orders do not depend on the request parameters. *)
Theorem Home_static_parts {Announcement Order : Type} (S : Number -> jsstring)
    (backend : @Backend Announcement Order) (cache : @Cache Announcement)
    (session : option Session) (params1 params2 : option (gmap string ParamValue)) :
  auth backend = Returned session ->
  exists vm1 w1 vm2 w2,
    Home S backend cache params1 initial_world = (Returned vm1, w1)
    /\ Home S backend cache params2 initial_world = (Returned vm2, w2)
    /\ announcement vm1 = announcement vm2
    /\ visitorCount vm1 = visitorCount vm2
    /\ categories vm1 = categories vm2
    /\ categoryConfig_array vm1 w1 = categoryConfig_array vm2 w2
    /\ pendingOrders vm1 = pendingOrders vm2.
Proof.
  intros Hauth. eexists _, _, _, _.
  split; [apply Home_run, Hauth|]. split; [apply Home_run, Hauth|].
  repeat split; reflexivity.
Qed.

(** X17. The filters and the page and page size of the pagination depend
    on the request parameters only: not on what the backend returns (a
    search result's own page and page size are ignored), nor on the cache. *)
Theorem Home_filters_echo_request {Announcement Order : Type} (S : Number -> jsstring)
    (backend1 backend2 : @Backend Announcement Order) (cache1 cache2 : @Cache Announcement)
    (session1 session2 : option Session) (params : option (gmap string ParamValue)) :
  auth backend1 = Returned session1 ->
  auth backend2 = Returned session2 ->
  exists vm1 w1 vm2 w2,
    Home S backend1 cache1 params initial_world = (Returned vm1, w1)
    /\ Home S backend2 cache2 params initial_world = (Returned vm2, w2)
    /\ filters vm1 = filters vm2
    /\ page (pagination vm1) = page (pagination vm2)
    /\ pageSize (pagination vm1) = PAGE_SIZE
    /\ pageSize (pagination vm2) = PAGE_SIZE.
Proof.
  intros Hauth1 Hauth2. eexists _, _, _, _.
  split; [apply Home_run, Hauth1|]. split; [apply Home_run, Hauth2|].
  repeat split; reflexivity.
Qed.

(** ** The further properties at work *)

Lemma stripMarkdown_fixed_points_witness :
  stripMarkdown (lit "Hi there!") = lit "Hi there!".
Proof.
  destruct stripMarkdown_fixed_points as [Hplain _]. apply Hplain.
  - intros H. apply list_elem_of_In in H. cbn in H. intuition discriminate.
  - repeat (constructor; [split; [reflexivity|intros H; first [reflexivity|discriminate H]]|]).
    constructor.
  - reflexivity.
  - intros c H. vm_compute in H. injection H as <-. reflexivity.
  - intros c H. vm_compute in H. injection H as <-. reflexivity.
Defined.

Lemma Home_calls_once_witness :
  let backend :=
    sample_backend (Returned (sample_user "u1")) Thrown (Returned []) (Returned []) Thrown in
  auth backend = Returned (sample_user "u1")
  /\ exists vm w,
      Home no_digits backend empty_cache None initial_world = (Returned vm, w)
      /\ NoDup (calls w)
      /\ last (calls w) = Some Call_auth.
Proof.
  intros backend. split; [reflexivity|].
  exact (Home_calls_once no_digits backend empty_cache None (sample_user "u1") eq_refl).
Defined.

Lemma Home_products_in_search_order_witness :
  let backend :=
    sample_backend (Returned None)
      (Returned (sample_search [sample_product "p2"; sample_product "p1"]))
      (Returned []) (Returned []) Thrown in
  auth backend = Returned None
  /\ exists vm w,
      Home no_digits backend empty_cache None initial_world = (Returned vm, w)
      /\ List.map base (products vm) = [sample_product "p2"; sample_product "p1"].
Proof.
  intros backend. split; [reflexivity|].
  destruct (Home_products_in_search_order no_digits backend empty_cache None None eq_refl)
    as (vm & w & Hrun & Hbase & _).
  exists vm, w. split; [exact Hrun|exact Hbase].
Defined.

Lemma Home_filters_trimmed_witness :
  let backend := sample_backend (Returned None) Thrown (Returned []) (Returned []) Thrown in
  let params := sample_params "sort" (lit "   ") in
  auth backend = Returned None
  /\ exists vm w,
      Home no_digits backend empty_cache params initial_world = (Returned vm, w)
      /\ f_sort (filters vm) = [].
Proof.
  intros backend params. split; [reflexivity|].
  destruct (Home_filters_trimmed no_digits backend empty_cache params None eq_refl)
    as (vm & w & Hrun & _ & _ & Hblank & _).
  exists vm, w. split; [exact Hrun|].
  apply (Hblank (lit "   ")); [reflexivity|]. repeat constructor.
Defined.

Lemma Home_page_numeral_witness :
  let backend := sample_backend (Returned None) Thrown (Returned []) (Returned []) Thrown in
  let params := sample_params "page" (lit " 007 items") in
  auth backend = Returned None
  /\ exists vm w,
      Home no_digits backend empty_cache params initial_world = (Returned vm, w)
      /\ page (pagination vm) = Int 7.
Proof.
  intros backend params. split; [reflexivity|].
  apply (Home_page_numeral no_digits backend empty_cache params None eq_refl
           (lit " ") (lit "007") (lit " items")).
  - reflexivity.
  - repeat constructor.
  - discriminate.
  - repeat constructor.
  - reflexivity.
  - reflexivity.
Defined.

Lemma Home_categories_complete_witness :
  let backend :=
    sample_backend (Returned None) Thrown (Returned sample_config)
      (Returned [lit "A"; lit "C"]) Thrown in
  auth backend = Returned None
  /\ exists vm w,
      Home no_digits backend empty_cache None initial_world = (Returned vm, w)
      /\ lit "C" ∈ categories vm.
Proof.
  intros backend. split; [reflexivity|].
  destruct (Home_categories_complete no_digits backend empty_cache None None eq_refl)
    as (vm & w & Hrun & Hall).
  exists vm, w. split; [exact Hrun|]. apply Hall. right. right. now left.
Defined.



Lemma Home_sorted_config_unchanged_witness :
  let sorted_config :=
    [ {| name := lit "A"; sortOrder := None |};
      {| name := lit "B"; sortOrder := Some 2 |} ] in
  let backend :=
    sample_backend (Returned None) Thrown (Returned sorted_config) (Returned []) Thrown in
  auth backend = Returned None
  /\ exists vm w,
      Home no_digits backend empty_cache None initial_world = (Returned vm, w)
      /\ categoryConfig_array vm w = sorted_config.
Proof.
  intros sorted_config backend. split; [reflexivity|].
  destruct (Home_sorted_config_unchanged no_digits backend empty_cache None None eq_refl)
    as (vm & w & Hrun & Harray & _).
  - repeat constructor. cbn. lia.
  - exists vm, w. split; [exact Hrun|exact Harray].
Defined.

Lemma Home_ratings_read_without_products_witness :
  let backend := sample_backend (Returned None) Thrown (Returned []) (Returned []) Thrown in
  auth backend = Returned None
  /\ exists vm w,
      Home no_digits backend empty_cache None initial_world = (Returned vm, w)
      /\ products vm = []
      /\ Call_getProductRatings [] ∈ calls w.
Proof.
  intros backend. split; [reflexivity|].
  exact (Home_ratings_read_without_products no_digits backend empty_cache None None
           eq_refl eq_refl eq_refl).
Defined.

Lemma Home_static_parts_witness :
  let backend :=
    sample_backend (Returned None) Thrown (Returned sample_config)
      (Returned [lit "C"]) Thrown in
  auth backend = Returned None
  /\ exists vm1 w1 vm2 w2,
      Home no_digits backend empty_cache None initial_world = (Returned vm1, w1)
      /\ Home no_digits backend empty_cache (sample_params "q" (lit "tea")) initial_world
         = (Returned vm2, w2)
      /\ categories vm1 = categories vm2.
Proof.
  intros backend. split; [reflexivity|].
  destruct (Home_static_parts no_digits backend empty_cache None None
              (sample_params "q" (lit "tea")) eq_refl)
    as (vm1 & w1 & vm2 & w2 & H1 & H2 & _ & _ & Hcats & _).
  exists vm1, w1, vm2, w2. split; [exact H1|]. split; [exact H2|exact Hcats].
Defined.

Lemma Home_filters_echo_request_witness :
  let backend1 := sample_backend (Returned None) Thrown (Returned []) (Returned []) Thrown in
  let backend2 :=
    sample_backend (Returned (sample_user "u1"))
      (Returned (sample_search [sample_product "p1"]))
      (Returned sample_config) (Returned []) Thrown in
  let params := sample_params "q" (lit " tea ") in
  auth backend1 = Returned None /\ auth backend2 = Returned (sample_user "u1")
  /\ exists vm1 w1 vm2 w2,
      Home no_digits backend1 empty_cache params initial_world = (Returned vm1, w1)
      /\ Home no_digits backend2 empty_cache params initial_world = (Returned vm2, w2)
      /\ filters vm1 = filters vm2.
Proof.
  intros backend1 backend2 params. split; [reflexivity|]. split; [reflexivity|].
  destruct (Home_filters_echo_request no_digits backend1 backend2 empty_cache empty_cache
              None (sample_user "u1") params eq_refl eq_refl)
    as (vm1 & w1 & vm2 & w2 & H1 & H2 & Hf & _).
  exists vm1, w1, vm2, w2. split; [exact H1|]. split; [exact H2|exact Hf].
Defined.

(** ** The handler on the cache of the framework *)

Lemma catch_served {A : Type} (store : jsstring -> option (Framework.Entry A))
    (c : Call) (o : Outcome A) (key : list jsstring) (d : A) (w : World) :
  catch (Framework.unstable_cache store (invoke c o) key) d w
  = (Returned (Framework.served store key o d),
     {| calls := Framework.producer_calls store key c ++ calls w; arrays := arrays w |}).
Proof.
  unfold catch, Framework.unstable_cache, Framework.served, Framework.producer_calls.
  destruct (store (Framework.join key)) as [[v [|]]|]; cbn [Framework.stale Framework.parsed].
  - unfold bind, settle, invoke, ret. destruct w; reflexivity.
  - unfold ret. destruct w; reflexivity.
  - unfold invoke. destruct o; reflexivity.
Qed.

Lemma map_outcome_IsMap (m : gmap (list N) Rating) (l : list Product) :
  Framework.map_outcome (Framework.enrich_or_throw (Framework.IsMap m)) l
  = Returned (List.map (enrich m) l).
Proof.
  induction l as [|p l IH]; [reflexivity|].
  cbn [Framework.map_outcome Framework.enrich_or_throw List.map]. now rewrite IH.
Qed.

Lemma map_outcome_IsPlainObject (l : list Product) :
  l <> [] ->
  Framework.map_outcome (Framework.enrich_or_throw Framework.IsPlainObject) l = Thrown.
Proof. destruct l; [contradiction|reflexivity]. Qed.

Lemma elem_of_producer_calls {A : Type} (store : jsstring -> option (Framework.Entry A))
    (key : list jsstring) (c c' : Call) :
  c' ∈ Framework.producer_calls store key c -> c' = c.
Proof.
  unfold Framework.producer_calls.
  destruct (store (Framework.join key)) as [[v [|]]|]; cbn [Framework.stale]; intros H;
    first [now apply elem_of_nil in H | now apply list_elem_of_singleton in H].
Qed.

Section FrameworkFacts.
Context {Announcement Order : Type}.
Variable String_of_Number : Number -> jsstring.
Variable auth_failure : Framework.Failure.
Variable backend : @Backend Announcement Order.
Variable cache : @Framework.Cache Announcement.
Variable searchParams : option (gmap string ParamValue).

Local Abbreviation resolved := (resolve searchParams).
Local Abbreviation run :=
  (Framework.Home String_of_Number auth_failure backend cache searchParams initial_world).
Local Abbreviation found :=
  (Framework.found_products String_of_Number backend cache resolved).
Local Abbreviation fan_out :=
  (Framework.fan_out_calls String_of_Number cache resolved).

Lemma elem_of_fan_out (c : Call) :
  c ∈ fan_out ->
  c = Call_getActiveProductCategories \/ c = Call_getCategories
  \/ c = Call_getVisitorCount \/ c = Call_getActiveAnnouncement
  \/ c = Call_searchActiveProducts (search_args resolved).
Proof using Type.
  unfold Framework.fan_out_calls. rewrite !elem_of_app.
  intros [H|[H|[H|[H|H]]]]; apply elem_of_producer_calls in H; tauto.
Qed.

(** C1. With a product found and an entry of the ratings read in the
    cache, the handler throws though no read has failed: [ratingsMap] is
    the plain object that the entry parses to, and the call of its [get]
    at line 93 is outside every [try]. The pending-orders read is never
    reached. *)
Theorem Home_raises_on_cached_ratings (session : option Session)
    (e : Framework.Entry unit) :
  auth backend = Returned session ->
  found <> [] ->
  Framework.cached_ratings cache
    (Framework.join (lit "product-ratings" :: sortedIds found)) = Some e ->
  exists w,
    run = (Thrown, w)
    /\ forall uid, Call_getUserPendingOrders uid ∉ calls w.
Proof using Type.
  intros Hauth Hfound Hhit. unfold Framework.Home. cbv [bind].
  unfold Framework.cachedSearch, Framework.getCachedAnnouncement,
    Framework.getCachedVisitorCount, Framework.getCachedCategories,
    Framework.getCachedProductCategories, Framework.cachedRatings.
  rewrite Hauth.
  replace (match auth_failure with
           | Framework.Rejects | _ => settle (invoke Call_auth (Returned session))
           end) with (settle (invoke Call_auth (Returned session)))
    by (destruct auth_failure; reflexivity).
  rewrite settle_invoke. cbv iota beta.
  do 4 (rewrite catch_served; cbn [calls arrays]; cbv iota beta).
  unfold new_array. cbn [calls arrays initial_world length app].
  rewrite catch_served; cbn [calls arrays]; cbv iota beta.
  unfold await at 1. cbv iota beta.
  rewrite catch_served; cbn [calls arrays]; cbv iota beta.
  fold (Framework.found_products String_of_Number backend cache resolved).
  assert (Hserved : Framework.served (Framework.ratings_store cache)
                      (lit "product-ratings" :: sortedIds found)
                      (Framework.getProductRatings_value backend (sortedIds found))
                      (Framework.IsMap ∅) = Framework.IsPlainObject).
  { unfold Framework.served, Framework.ratings_store. now rewrite Hhit. }
  rewrite Hserved, (map_outcome_IsPlainObject _ Hfound). unfold await.
  eexists. split; [reflexivity|]. cbn [calls].
  intros uid Hin. rewrite !elem_of_app in Hin.
  destruct Hin as [H|[H|[H|[H|[H|[H|H]]]]]];
    try (apply elem_of_producer_calls in H; discriminate).
  apply list_elem_of_singleton in H. discriminate.
Qed.

(** X4. When the session read fails, the handler fails: nothing catches
    it. When [auth()] throws at the call, no other backend function is
    invoked; when its promise is rejected, the five reads of the fan-out
    were started first (each invoking its backend function unless a fresh
    entry is cached). Either way neither the ratings read nor the
    pending-orders read is invoked. *)
Theorem Home_session_failure :
  auth backend = Thrown ->
  exists w,
    run = (Thrown, w)
    /\ calls w = match auth_failure with
                 | Framework.Throws => [Call_auth]
                 | Framework.Rejects => fan_out ++ [Call_auth]
                 end
    /\ (forall ids, Call_getProductRatings ids ∉ calls w)
    /\ (forall uid, Call_getUserPendingOrders uid ∉ calls w).
Proof using Type.
  intros Hauth.
  assert (Hrun : exists w,
             run = (Thrown, w)
             /\ calls w = match auth_failure with
                          | Framework.Throws => [Call_auth]
                          | Framework.Rejects => fan_out ++ [Call_auth]
                          end).
  { unfold Framework.Home. cbv [bind]. rewrite Hauth. destruct auth_failure.
    - unfold Framework.cachedSearch, Framework.getCachedAnnouncement,
        Framework.getCachedVisitorCount, Framework.getCachedCategories,
        Framework.getCachedProductCategories.
      rewrite settle_invoke. cbv iota beta.
      do 4 (rewrite catch_served; cbn [calls arrays]; cbv iota beta).
      unfold new_array. cbn [calls arrays initial_world length app].
      rewrite catch_served; cbn [calls arrays]; cbv iota beta.
      unfold await. eexists. split; [reflexivity|]. cbn [calls].
      unfold Framework.fan_out_calls. now rewrite <- !app_assoc.
    - unfold invoke. cbn [calls arrays initial_world]. eexists. split; reflexivity. }
  destruct Hrun as (w & Hrun & Hcalls). exists w.
  split; [exact Hrun|]. split; [exact Hcalls|].
  assert (Hin : forall c, c ∈ calls w -> c = Call_auth \/ c ∈ fan_out).
  { intros c Hc. rewrite Hcalls in Hc. destruct auth_failure.
    - apply elem_of_app in Hc. destruct Hc as [Hc|Hc]; [now right|].
      apply list_elem_of_singleton in Hc. now left.
    - apply list_elem_of_singleton in Hc. now left. }
  split.
  - intros ids Hc. destruct (Hin _ Hc) as [H|H]; [discriminate|].
    apply elem_of_fan_out in H. destruct H as [H|[H|[H|[H|H]]]]; discriminate.
  - intros uid Hc. destruct (Hin _ Hc) as [H|H]; [discriminate|].
    apply elem_of_fan_out in H. destruct H as [H|[H|[H|[H|H]]]]; discriminate.
Qed.
End FrameworkFacts.

Lemma served_typed {A : Type} (store : jsstring -> option (Framework.Entry A))
    (key : list jsstring) (o : Outcome A) (d : A) :
  Framework.served store key o d
  = or_fallback
      (read_outcome (fun k => Framework.parsed <$> store (Framework.join k)) key o) d.
Proof.
  unfold Framework.served, read_outcome.
  destruct (store (Framework.join key)); reflexivity.
Qed.

Lemma producer_calls_fresh {A : Type} (store : jsstring -> option (Framework.Entry A))
    (key : list jsstring) (c : Call) :
  (forall k e, store k = Some e -> Framework.stale e = false) ->
  Framework.producer_calls store key c
  = miss_calls (fun k => Framework.parsed <$> store (Framework.join k)) key c.
Proof.
  intros Hfresh. unfold Framework.producer_calls, miss_calls.
  destruct (store (Framework.join key)) as [e|] eqn:E; [|reflexivity].
  cbn. now rewrite (Hfresh _ _ E).
Qed.

(** With fresh entries only and none of the ratings read, and [auth()]
    failing by rejection if at all, the handler does on the cache of the
    framework what [Home] does on the cache of the parsed entries. *)
Lemma Framework_Home_typed {Announcement Order : Type} (S : Number -> jsstring)
    (auth_failure : Framework.Failure) (backend : @Backend Announcement Order)
    (cache : @Framework.Cache Announcement)
    (searchParams : option (gmap string ParamValue)) :
  (auth_failure = Framework.Rejects \/ auth backend <> Thrown) ->
  (forall k e, Framework.cached_products cache k = Some e -> Framework.stale e = false) ->
  (forall k e, Framework.cached_announcement cache k = Some e -> Framework.stale e = false) ->
  (forall k e, Framework.cached_visitors cache k = Some e -> Framework.stale e = false) ->
  (forall k e, Framework.cached_categories cache k = Some e -> Framework.stale e = false) ->
  (forall k e, Framework.cached_product_categories cache k = Some e ->
               Framework.stale e = false) ->
  (forall k, Framework.cached_ratings cache k = None) ->
  Framework.Home S auth_failure backend cache searchParams initial_world
  = Home S backend (typed_cache cache) searchParams initial_world.
Proof.
  intros Hauth H1 H2 H3 H4 H5 Hratings.
  assert (Hsettle : match auth_failure, auth backend with
                    | Framework.Throws, Thrown => invoke Call_auth Thrown
                    | _, o => settle (invoke Call_auth o)
                    end = settle (invoke Call_auth (auth backend))).
  { destruct auth_failure, (auth backend); try reflexivity.
    destruct Hauth as [Hauth|Hauth]; [discriminate|contradiction]. }
  unfold Framework.Home, Home. cbv [bind]. rewrite Hsettle.
  unfold Framework.cachedSearch, Framework.getCachedAnnouncement,
    Framework.getCachedVisitorCount, Framework.getCachedCategories,
    Framework.getCachedProductCategories, Framework.cachedRatings,
    cachedSearch, getCachedAnnouncement, getCachedVisitorCount,
    getCachedCategories, getCachedProductCategories, cachedRatings,
    Framework.search_key, Framework.search_fallback, search_args.
  rewrite !settle_invoke. cbv iota beta.
  do 4 (rewrite catch_served, catch_cached; cbn [calls arrays]; cbv iota beta).
  unfold new_array. cbn [calls arrays initial_world length app].
  rewrite catch_served, catch_cached; cbn [calls arrays]; cbv iota beta.
  unfold typed_cache.
  cbn [cached_products cached_announcement cached_visitors cached_categories
       cached_product_categories cached_ratings].
  rewrite !served_typed.
  rewrite (producer_calls_fresh _ _ _ H1), (producer_calls_fresh _ _ _ H2),
    (producer_calls_fresh _ _ _ H3), (producer_calls_fresh _ _ _ H4),
    (producer_calls_fresh _ _ _ H5).
  unfold await at 1 3. destruct (auth backend) as [session|]; [|reflexivity].
  rewrite catch_served, catch_cached; cbn [calls arrays]; cbv iota beta.
  unfold Framework.served, Framework.ratings_store, Framework.producer_calls,
    read_outcome, miss_calls. rewrite Hratings.
  unfold Framework.getProductRatings_value.
  match goal with
  | |- context [getProductRatings backend ?ids] =>
      destruct (getProductRatings backend ids) as [m|]
  end; cbn [or_fallback]; rewrite map_outcome_IsMap; unfold await; reflexivity.
Qed.

(** The second request for one product: the ratings of the first are in
    the cache. *)
Lemma Home_raises_on_cached_ratings_witness :
  let backend :=
    sample_backend (Returned None) (Returned (sample_search [sample_product "p1"]))
      (Returned []) (Returned []) (Returned ∅) in
  auth backend = Returned None
  /\ Framework.found_products no_digits backend ratings_cached (resolve None)
     = [sample_product "p1"]
  /\ exists w,
      Framework.Home no_digits Framework.Rejects backend ratings_cached None initial_world
      = (Thrown, w).
Proof.
  intros backend. split; [reflexivity|]. split; [reflexivity|].
  destruct (Home_raises_on_cached_ratings no_digits Framework.Rejects backend
              ratings_cached None None
              {| Framework.parsed := tt; Framework.stale := false |}
              eq_refl ltac:(discriminate) eq_refl)
    as (w & Hrun & _).
  exists w. exact Hrun.
Defined.

(** [auth()] throws at the call. *)
Lemma Home_session_failure_witness :
  let backend := sample_backend Thrown Thrown (Returned []) (Returned []) Thrown in
  auth backend = Thrown
  /\ exists w,
      Framework.Home no_digits Framework.Throws backend nothing_cached None initial_world
      = (Thrown, w)
      /\ calls w = [Call_auth].
Proof.
  intros backend. split; [reflexivity|].
  destruct (Home_session_failure no_digits Framework.Throws backend nothing_cached None
              eq_refl)
    as (w & Hrun & Hcalls & _).
  exists w. split; [exact Hrun|exact Hcalls].
Defined.
